(** * MEP Routing: junction inference of the RevitAPI-MEP extension

    A shallow embedding of [utils.py] and of the fitting loop of [script.py]
    (MEP Routing.pushbutton), with the properties of the junction classifier,
    the shared-point search, the parallelism test, the connector clustering
    and the per-cluster driver loop.

    Conventions of the embedding:
    - Python floats are idealised as real numbers ([R]); comparisons are
      turned into booleans with the decision procedures of the reals.
    - The Revit geometry class [XYZ] is modelled after its documentation:
      [DistanceTo] is the Euclidean distance, [Normalize] divides by the
      length, [AngleTo] is the angle in [0, PI] between two vectors.
    - An element is a record holding what the code reads of it: its [Id],
      its [Location] ([Some curve] exactly when the location is a
      [LocationCurve]) and the connectors of its [ConnectorManager].
    - The document is a log of the fitting constructors invoked on it,
      together with an oracle telling which invocations the host rejects.
      Programs run in a state-and-exception monad over that log and the
      printed output. *)

From Stdlib Require Import Reals Lra List Bool Arith Lia String Permutation.
Import ListNotations.

Open Scope R_scope.

(** ** Comparisons on floats, as booleans *)

Definition Rltb (x y : R) : bool := if Rlt_dec x y then true else false.

Lemma Rltb_true_iff (x y : R) : Rltb x y = true <-> x < y.
Proof. unfold Rltb; destruct (Rlt_dec x y); split; intros; congruence || assumption. Qed.

Lemma Rltb_false_iff (x y : R) : Rltb x y = false <-> ~ x < y.
Proof. unfold Rltb; destruct (Rlt_dec x y); split; intros; congruence || tauto. Qed.

Definition Rleb (x y : R) : bool := if Rle_dec x y then true else false.

Lemma Rleb_true_iff (x y : R) : Rleb x y = true <-> x <= y.
Proof. unfold Rleb; destruct (Rle_dec x y); split; intros; congruence || assumption. Qed.

Lemma Rleb_false_iff (x y : R) : Rleb x y = false <-> ~ x <= y.
Proof. unfold Rleb; destruct (Rle_dec x y); split; intros; congruence || tauto. Qed.

(** ** The Revit geometry the code calls *)

Record XYZ : Type := mkXYZ { X : R; Y : R; Z : R }.

(** [p1 + p2], [p1 - p2] and [p * k] on [XYZ]. *)
Definition XYZ_add (p q : XYZ) : XYZ := mkXYZ (X p + X q) (Y p + Y q) (Z p + Z q).
Definition XYZ_sub (p q : XYZ) : XYZ := mkXYZ (X p - X q) (Y p - Y q) (Z p - Z q).
Definition XYZ_mul (p : XYZ) (k : R) : XYZ := mkXYZ (X p * k) (Y p * k) (Z p * k).
Definition XYZ_neg (p : XYZ) : XYZ := mkXYZ (- X p) (- Y p) (- Z p).

Definition DotProduct (p q : XYZ) : R := X p * X q + Y p * Y q + Z p * Z q.
Definition GetLength (p : XYZ) : R := sqrt (DotProduct p p).
Definition DistanceTo (p q : XYZ) : R := GetLength (XYZ_sub p q).
Definition Normalize (p : XYZ) : XYZ := XYZ_mul p (/ GetLength p).
Definition AngleTo (p q : XYZ) : R :=
  acos (DotProduct p q / (GetLength p * GetLength q)).

Record Curve : Type := mkCurve { EndPoint0 : XYZ; EndPoint1 : XYZ }.

Definition GetEndPoint (c : Curve) (index : nat) : XYZ :=
  match index with O => EndPoint0 c | _ => EndPoint1 c end.

Definition ElementId := nat.
Bind Scope nat_scope with ElementId.

Record Connector : Type := mkConnector { Origin : XYZ; Owner : ElementId }.

(** An MEP curve element (duct, pipe, cable tray or conduit). [Location] is
    [Some c] when the element's location is a [LocationCurve] with curve [c],
    and [None] for any other location. *)
Record MEPCurve : Type := mkMEPCurve {
  Id : ElementId;
  Location : option Curve;
  Connectors : list Connector
}.

(** ** The document: fitting constructors, their log and their failures *)

Inductive FittingCall : Type :=
| NewUnionFitting (c1 c2 : Connector)
| NewElbowFitting (c1 c2 : Connector)
| NewTeeFitting (c1 c2 c3 : Connector)
| NewCrossFitting (c1 c2 c3 c4 : Connector).

(** [accepts doc history call] tells whether the host creates the fitting
    asked for by [call] after the invocations in [history]; when it does not,
    the constructor raises. *)
Record Document : Type := mkDocument {
  accepts : list FittingCall -> FittingCall -> bool
}.

Inductive exn : Type :=
| IndexError                 (* [lst[i]] out of range *)
| ArgumentNullException      (* [None] handed to [XYZ.AngleTo] *)
| AttributeError             (* a method looked up on [None] *)
| InvalidOperationException (call : FittingCall). (* constructor rejected *)

Record World : Type := mkWorld {
  invoked : list FittingCall;   (* constructor invocations, oldest first *)
  stdout : list string          (* what [print] wrote, oldest first *)
}.

Inductive result (A : Type) : Type :=
| Ok (a : A)
| Raise (e : exn).
Arguments Ok {A} a.
Arguments Raise {A} e.

Definition M (A : Type) : Type := World -> result A * World.

Definition ret {A} (a : A) : M A := fun w => (Ok a, w).
Definition raise {A} (e : exn) : M A := fun w => (Raise e, w).
Definition bind {A B} (m : M A) (k : A -> M B) : M B :=
  fun w => match m w with
           | (Ok a, w') => k a w'
           | (Raise e, w') => (Raise e, w')
           end.
Definition try_except {A} (body : M A) (handler : exn -> M A) : M A :=
  fun w => match body w with
           | (Ok a, w') => (Ok a, w')
           | (Raise e, w') => handler e w'
           end.
Definition lift {A} (r : result A) : M A := fun w => (r, w).

Declare Scope py_scope.
Delimit Scope py_scope with py.
Notation "x <- m ;; k" := (bind m (fun x => k))
  (at level 61, m at next level, right associativity) : py_scope.
Notation "m ;;; k" := (bind m (fun _ => k))
  (at level 61, right associativity) : py_scope.
Open Scope py_scope.

Definition print (s : string) : M unit :=
  fun w => (Ok tt, mkWorld (invoked w) (stdout w ++ [s])).

(** Invoking a constructor of [doc.Create]: the invocation is logged, and the
    call raises when the host rejects it. *)
Definition invoke (doc : Document) (call : FittingCall) : M unit :=
  fun w =>
    let w' := mkWorld (invoked w ++ [call]) (stdout w) in
    if accepts doc (invoked w) call then (Ok tt, w')
    else (Raise (InvalidOperationException call), w').

(** [lst[i]] *)
Definition getitem {A} (lst : list A) (i : nat) : M A :=
  match nth_error lst i with
  | Some a => ret a
  | None => raise IndexError
  end.

(** [sorted(lst, key=key)]: a stable sort, smallest key first. *)
Fixpoint insert_by {A} (key : A -> R) (x : A) (l : list A) : list A :=
  match l with
  | [] => [x]
  | y :: t => if Rleb (key x) (key y) then x :: y :: t
              else y :: insert_by key x t
  end.

Definition sorted {A} (lst : list A) (key : A -> R) : list A :=
  fold_right (insert_by key) [] lst.

(** ** utils.py *)

(** *** [group_MEPcuve_element_connectors_by_location]

    Python's built-in [round(number, ndigits)] is a parameter of the
    clustering: its tie rule differs between interpreters, and nothing below
    depends on it. The [defaultdict(list)] is an association list in
    insertion order, which is the order [values()] iterates in. *)

Definition Key : Type := (R * R * R)%type.

Definition Key_eq_dec (k1 k2 : Key) : {k1 = k2} + {k1 <> k2}.
Proof.
  destruct k1 as [[a1 b1] c1], k2 as [[a2 b2] c2].
  destruct (Req_dec_T a1 a2) as [Ha | Ha]; [| right; congruence].
  destruct (Req_dec_T b1 b2) as [Hb | Hb]; [| right; congruence].
  destruct (Req_dec_T c1 c2) as [Hc | Hc]; [| right; congruence].
  left; congruence.
Defined.

Definition Key_eqb (k1 k2 : Key) : bool :=
  if Key_eq_dec k1 k2 then true else false.

Definition defaultdict : Type := list (Key * list Connector).

(** [grouped[key].append(c)] on a [defaultdict(list)]: a missing key is
    inserted last with an empty list before the append. *)
Fixpoint defaultdict_append (grouped : defaultdict) (key : Key) (c : Connector)
  : defaultdict :=
  match grouped with
  | [] => [(key, [c])]
  | (k, l) :: rest =>
      if Key_eqb key k then (k, l ++ [c]) :: rest
      else (k, l) :: defaultdict_append rest key c
  end.

Definition keys (grouped : defaultdict) : list Key := map fst grouped.
Definition values (grouped : defaultdict) : list (list Connector) := map snd grouped.

Section Clustering.

Variable round : R -> nat -> R.

Definition location_key (c : Connector) : Key :=
  let p := Origin c in
  (round (X p) 3, round (Y p) 3, round (Z p) 3).

Definition group_MEPcuve_element_connectors_by_location
    (MEPcuve_element_connectors : list Connector) : defaultdict :=
  fold_left (fun grouped c => defaultdict_append grouped (location_key c) c)
            MEPcuve_element_connectors [].

End Clustering.

(** *** [filter_MEPcurve_elements_using_connectors] *)

Definition filter_MEPcurve_elements_using_connectors
    (connectors : list Connector) (all_MEPcurve_elements : list MEPCurve)
  : list MEPCurve :=
  let connector_owner_ids := map Owner connectors in
  filter (fun duct => existsb (Nat.eqb (Id duct)) connector_owner_ids)
         all_MEPcurve_elements.

(** *** [find_shared_point_between_curves]

    A curve is an object without a truth value of its own, so [not c1] holds
    exactly when [c1] is [None]; the same goes for the point tested by
    [if not intersection] in [create_fitting]. *)

(** The inner loop [for p2 in points2] for a fixed [p1]. *)
Fixpoint shared_point_inner (p1 : XYZ) (points2 : list XYZ) : option XYZ :=
  match points2 with
  | [] => None
  | p2 :: rest =>
      if Rltb (DistanceTo p1 p2) 0.01 then Some (XYZ_mul (XYZ_add p1 p2) 0.5)
      else shared_point_inner p1 rest
  end.

(** The outer loop [for p1 in points1]. *)
Fixpoint shared_point_outer (points1 points2 : list XYZ) : option XYZ :=
  match points1 with
  | [] => None
  | p1 :: rest =>
      match shared_point_inner p1 points2 with
      | Some m => Some m
      | None => shared_point_outer rest points2
      end
  end.

Definition find_shared_point_between_curves (c1 c2 : option Curve) : option XYZ :=
  match c1, c2 with
  | Some c1, Some c2 =>
      let points1 := [GetEndPoint c1 0; GetEndPoint c1 1] in
      let points2 := [GetEndPoint c2 0; GetEndPoint c2 1] in
      shared_point_outer points1 points2
  | _, _ => None
  end.

(** *** [get_MEPcurve_element_direction] *)

Definition get_MEPcurve_element_direction (MEPcurve_element : MEPCurve)
  : option XYZ :=
  let curve := Location MEPcurve_element in
  match curve with
  | Some curve =>
      Some (Normalize (XYZ_sub (GetEndPoint curve 1) (GetEndPoint curve 0)))
  | None => None
  end.

(** *** [are_directions_parallel]

    A direction may be [None]; calling [AngleTo] on it, or with it, raises. *)

Definition default_tolerance : R := 0.01.

Definition are_directions_parallel (v1 v2 : option XYZ) (tolerance : R)
  : result bool :=
  match v1 with
  | None => Raise AttributeError
  | Some v1 =>
      match v2 with
      | None => Raise ArgumentNullException
      | Some v2 => Ok (Rltb (sin (AngleTo v1 v2)) tolerance)
      end
  end.

(** *** [MEPcurve_element_nearest_connector_to_point] *)

Definition MEPcurve_element_nearest_connector_to_point
    (MEPcurve_element : MEPCurve) (point : XYZ) : M Connector :=
  let connectors := Connectors MEPcurve_element in
  getitem (sorted connectors (fun c => DistanceTo (Origin c) point)) 0.

(** *** [create_fitting] *)

Definition create_fitting (doc : Document) (ducts : list MEPCurve) : M unit :=
  let count := List.length ducts in
  if (count <? 2)%nat || (4 <? count)%nat then ret tt
  else
    duct1 <- getitem ducts 0 ;;
    duct2 <- getitem ducts 1 ;;
    let c1 := Location duct1 in
    let c2 := Location duct2 in
    match find_shared_point_between_curves c1 c2 with
    | None => ret tt
    | Some intersection =>
        conn1 <- MEPcurve_element_nearest_connector_to_point duct1 intersection ;;
        conn2 <- MEPcurve_element_nearest_connector_to_point duct2 intersection ;;
        let dir1 := get_MEPcurve_element_direction duct1 in
        let dir2 := get_MEPcurve_element_direction duct2 in
        if (count =? 2)%nat then
          par12 <- lift (are_directions_parallel dir1 dir2 default_tolerance) ;;
          if par12 then invoke doc (NewUnionFitting conn1 conn2)
          else invoke doc (NewElbowFitting conn1 conn2)
        else if (count =? 3)%nat then
          duct3 <- getitem ducts 2 ;;
          conn3 <- MEPcurve_element_nearest_connector_to_point duct3 intersection ;;
          let dir3 := get_MEPcurve_element_direction duct3 in
          par12 <- lift (are_directions_parallel dir1 dir2 default_tolerance) ;;
          if par12 then invoke doc (NewTeeFitting conn1 conn2 conn3)
          else
            par13 <- lift (are_directions_parallel dir1 dir3 default_tolerance) ;;
            if par13 then invoke doc (NewTeeFitting conn3 conn1 conn2)
            else invoke doc (NewTeeFitting conn3 conn2 conn1)
        else if (count =? 4)%nat then
          duct3 <- getitem ducts 2 ;;
          duct4 <- getitem ducts 3 ;;
          conn3 <- MEPcurve_element_nearest_connector_to_point duct3 intersection ;;
          conn4 <- MEPcurve_element_nearest_connector_to_point duct4 intersection ;;
          let dir3 := get_MEPcurve_element_direction duct3 in
          let dir4 := get_MEPcurve_element_direction duct4 in
          par12 <- lift (are_directions_parallel dir1 dir2 default_tolerance) ;;
          if par12 then invoke doc (NewCrossFitting conn1 conn2 conn3 conn4)
          else
            par13 <- lift (are_directions_parallel dir1 dir3 default_tolerance) ;;
            if par13 then invoke doc (NewCrossFitting conn1 conn3 conn2 conn4)
            else
              par14 <- lift (are_directions_parallel dir1 dir4 default_tolerance) ;;
              if par14 then invoke doc (NewCrossFitting conn1 conn4 conn2 conn3)
              else ret tt
        else ret tt
    end.

(** ** script.py: the loop over the connector groups *)

Definition newline : string := String (Ascii.ascii_of_nat 10) EmptyString.

(** [traceback.format_exc()], reduced to the name of the exception. *)
Definition format_exc (e : exn) : string :=
  match e with
  | IndexError => "IndexError"
  | ArgumentNullException => "ArgumentNullException"
  | AttributeError => "AttributeError"
  | InvalidOperationException _ => "InvalidOperationException"
  end.

Fixpoint fittings_loop (DOC : Document) (mep_elements : list MEPCurve)
    (groups : list (list Connector)) : M unit :=
  match groups with
  | [] => ret tt
  | group :: rest =>
      try_except
        (let connected_ducts :=
           filter_MEPcurve_elements_using_connectors group mep_elements in
         create_fitting DOC connected_ducts)
        (fun e =>
           print ("Error" ++ newline) ;;;
           print (format_exc e) ;;;
           print newline) ;;;
      fittings_loop DOC mep_elements rest
  end.

(** Lines 113-126 of the script: group the connectors, then run the loop over
    [connector_groups.values()]. The loop is a statement of the script: it
    hands no value to anything. *)
Definition create_fittings (round : R -> nat -> R) (DOC : Document)
    (mep_elements : list MEPCurve) (mep_elements_connectors : list Connector)
  : M unit :=
  let connector_groups :=
    group_MEPcuve_element_connectors_by_location round mep_elements_connectors in
  fittings_loop DOC mep_elements (values connector_groups).

(** * Definitions used to state the properties *)

(** ** Running programs *)

Definition run {A} (m : M A) (w : World) : result A * World := m w.
Definition outcome {A} (m : M A) (w : World) : result A := fst (m w).
Definition calls_after {A} (m : M A) (w : World) : list FittingCall :=
  invoked (snd (m w)).

(** The parallelism test on two directions that exist. *)
Definition parallel (v1 v2 : XYZ) : bool :=
  Rltb (sin (AngleTo v1 v2)) default_tolerance.

(** ** The classifier's choices *)

(** The element left outside the through pair by the two tests of the arity-3
    case, numbered 1 to 3. *)
Definition tee_branch (dir1 dir2 dir3 : XYZ) : nat :=
  if parallel dir1 dir2 then 3%nat
  else if parallel dir1 dir3 then 2%nat
  else 1%nat.

Definition branch_connector (branch : nat) (conn1 conn2 conn3 : Connector)
  : Connector :=
  match branch with
  | 1%nat => conn1
  | 2%nat => conn2
  | _ => conn3
  end.

(** The two other connectors, in the order of their elements. *)
Definition through_connectors (branch : nat) (conn1 conn2 conn3 : Connector)
  : Connector * Connector :=
  match branch with
  | 1%nat => (conn2, conn3)
  | 2%nat => (conn1, conn3)
  | _ => (conn1, conn2)
  end.

(** The tee as the specification words it: the branch connector first, then
    the two through connectors in the order of their elements. *)
Definition tee_branch_first (branch : nat) (conn1 conn2 conn3 : Connector)
  : FittingCall :=
  let (a, b) := through_connectors branch conn1 conn2 conn3 in
  NewTeeFitting (branch_connector branch conn1 conn2 conn3) a b.

Definition has_curve (d : MEPCurve) : Prop := Location d <> None.
Definition has_connector (d : MEPCurve) : Prop := Connectors d <> [].

(** ** The shared point *)

(** The endpoint pairs, one endpoint from each curve, in the order the two
    loops visit them. *)
Definition endpoint_pairs (c1 c2 : Curve) : list (XYZ * XYZ) :=
  [ (GetEndPoint c1 0, GetEndPoint c2 0); (GetEndPoint c1 0, GetEndPoint c2 1);
    (GetEndPoint c1 1, GetEndPoint c2 0); (GetEndPoint c1 1, GetEndPoint c2 1) ].

Definition within_tolerance (pq : XYZ * XYZ) : bool :=
  Rltb (DistanceTo (fst pq) (snd pq)) 0.01.

Definition midpoint (pq : XYZ * XYZ) : XYZ :=
  mkXYZ ((X (fst pq) + X (snd pq)) / 2) ((Y (fst pq) + Y (snd pq)) / 2)
        ((Z (fst pq) + Z (snd pq)) / 2).

(** The shared point as the specification words it: the midpoint of the first
    endpoint pair closer than 0.01, if there is one. *)
Definition shared_point_spec (c1 c2 : Curve) : option XYZ :=
  option_map midpoint (find within_tolerance (endpoint_pairs c1 c2)).

(** ** Clustering *)

(** The keys of a list in the order of their first occurrence. *)
Fixpoint first_seen (ks : list Key) : list Key :=
  match ks with
  | [] => []
  | k :: rest => k :: filter (fun k' => negb (Key_eqb k' k)) (first_seen rest)
  end.

(** The group of a key: the connectors with that key, in input order. *)
Definition bucket (round : R -> nat -> R) (cs : list Connector) (k : Key) : Key * list Connector :=
  (k, filter (fun c => Key_eqb (location_key round c) k) cs).

(** A rounding to [ndigits] decimals, halves away from zero, to run the
    clustering on concrete connectors. *)
Definition round_half_away (x : R) (ndigits : nat) : R :=
  let scale := 10 ^ ndigits in
  (if Rle_dec 0 x then IZR (Int_part (x * scale + / 2))
   else - IZR (Int_part (- x * scale + / 2))) / scale.

(** ** The loop over the clusters *)

(** What one run of [create_fitting] amounts to: nothing, an exception before
    any constructor, or one constructor invocation. *)
Inductive plan : Type :=
| Skip
| Fail (e : exn)
| Call (call : FittingCall).

Definition execute (doc : Document) (p : plan) : M unit :=
  match p with
  | Skip => ret tt
  | Fail e => raise e
  | Call call => invoke doc call
  end.

Definition planned_calls (p : plan) : list FittingCall :=
  match p with
  | Call call => [call]
  | _ => []
  end.

(** One turn of the loop, as a change of the world: the cluster's fitting is
    attempted, and a failure leaves three printed items behind. *)
Definition attempt (DOC : Document) (mep_elements : list MEPCurve)
    (group : list Connector) (w : World) : World :=
  match create_fitting DOC
          (filter_MEPcurve_elements_using_connectors group mep_elements) w with
  | (Ok _, w1) => w1
  | (Raise e, w1) =>
      mkWorld (invoked w1)
              (stdout w1 ++ [("Error" ++ newline)%string; format_exc e; newline])
  end.

(** The exceptions raised by the clusters of one run of the loop, in order. *)
Fixpoint cluster_failures (DOC : Document) (mep_elements : list MEPCurve)
    (groups : list (list Connector)) (w : World) : list exn :=
  match groups with
  | [] => []
  | group :: rest =>
      let later :=
        cluster_failures DOC mep_elements rest (attempt DOC mep_elements group w) in
      match outcome (create_fitting DOC
                       (filter_MEPcurve_elements_using_connectors group mep_elements))
                    w with
      | Ok _ => later
      | Raise e => e :: later
      end
  end.

(** The last part of C9 as the specification words it: what the loop hands
    back tells its caller which failures occurred. *)
Definition reports_failures_to_caller : Prop :=
  exists report : result unit -> list exn,
    forall DOC mep_elements groups w,
      report (outcome (fittings_loop DOC mep_elements groups) w)
      = cluster_failures DOC mep_elements groups w.

(** ** A concrete network: unit ducts meeting at the origin *)

Module Fixture.

Definition origin : XYZ := mkXYZ 0 0 0.
Definition west : XYZ := mkXYZ (-1) 0 0.
Definition east : XYZ := mkXYZ 1 0 0.
Definition north : XYZ := mkXYZ 0 1 0.
Definition south : XYZ := mkXYZ 0 (-1) 0.
Definition above : XYZ := mkXYZ 0 0 1.

Definition duct (id : ElementId) (a b : XYZ) : MEPCurve :=
  mkMEPCurve id (Some (mkCurve a b)) [mkConnector a id; mkConnector b id].

Definition duct_west : MEPCurve := duct 1 west origin.
Definition duct_east : MEPCurve := duct 2 origin east.
Definition duct_north : MEPCurve := duct 3 origin north.
Definition duct_south : MEPCurve := duct 4 origin south.
Definition duct_above : MEPCurve := duct 5 origin above.

(** An element whose location is not a curve, with a connector at the
    origin. *)
Definition no_curve : MEPCurve :=
  mkMEPCurve 6 None [mkConnector origin 6].

(** The midpoint the shared-point search returns for two ducts touching at
    the origin. *)
Definition meeting : XYZ := XYZ_mul (XYZ_add origin origin) 0.5.

(** The connector of each duct that lies at the origin. *)
Definition conn_west : Connector := mkConnector origin 1.
Definition conn_east : Connector := mkConnector origin 2.
Definition conn_north : Connector := mkConnector origin 3.
Definition conn_south : Connector := mkConnector origin 4.
Definition conn_above : Connector := mkConnector origin 5.
Definition conn_no_curve : Connector := mkConnector origin 6.

Definition yes : Document := mkDocument (fun _ _ => true).
Definition no : Document := mkDocument (fun _ _ => false).
Definition w0 : World := mkWorld [] [].

(** The directions of the unit ducts. *)
Definition dir_west : XYZ := XYZ_sub origin west.
Definition dir_east : XYZ := XYZ_sub east origin.
Definition dir_north : XYZ := XYZ_sub north origin.
Definition dir_south : XYZ := XYZ_sub south origin.
Definition dir_above : XYZ := XYZ_sub above origin.

End Fixture.

(** ** A second network: three ducts in a row along the x axis

    The two clusters where they meet, and a host that rejects the first
    fitting it is asked for. *)

Module ThreeInARow.

Definition far : XYZ := mkXYZ 2 0 0.
Definition duct_far : MEPCurve := Fixture.duct 9 Fixture.east far.
Definition meeting_east : XYZ := XYZ_mul (XYZ_add Fixture.east Fixture.east) 0.5.
Definition conn_east_end : Connector := mkConnector Fixture.east 2.
Definition conn_far_start : Connector := mkConnector Fixture.east 9.

Definition rejects_first : Document :=
  mkDocument (fun history _ => match history with [] => false | _ => true end).

Definition elements : list MEPCurve :=
  [Fixture.duct_west; Fixture.duct_east; duct_far].
Definition groups : list (list Connector) :=
  [[Fixture.conn_west; Fixture.conn_east]; [conn_east_end; conn_far_start]].

Definition dir_far : XYZ := XYZ_sub far Fixture.east.

End ThreeInARow.

(** ** Definitions for the further properties *)

(** The curve run through the other way ([Curve.CreateReversed]). *)
Definition reversed (c : Curve) : Curve := mkCurve (EndPoint1 c) (EndPoint0 c).

(** An element with its curve reversed and everything else unchanged. *)
Definition with_curve (d : MEPCurve) (c : Curve) : MEPCurve :=
  mkMEPCurve (Id d) (Some c) (Connectors d).

(** The connectors handed to a fitting constructor, in argument order. *)
Definition fitting_connectors (call : FittingCall) : list Connector :=
  match call with
  | NewUnionFitting c1 c2 => [c1; c2]
  | NewElbowFitting c1 c2 => [c1; c2]
  | NewTeeFitting c1 c2 c3 => [c1; c2; c3]
  | NewCrossFitting c1 c2 c3 c4 => [c1; c2; c3; c4]
  end.

(** The shared point of the first two elements of a list, when there is one. *)
Definition first_two_shared_point (ducts : list MEPCurve) : option XYZ :=
  match ducts with
  | d1 :: d2 :: _ => find_shared_point_between_curves (Location d1) (Location d2)
  | _ => None
  end.

(** A [round(x, 3)] that lands within half a thousandth of [x]. *)
Definition rounds_to_nearest_thousandth (round : R -> nat -> R) : Prop :=
  forall x, x - 0.0005 <= round x 3%nat <= x + 0.0005.

(** The connector lies at one end of the curve. *)
Definition at_curve_end (c : Connector) (curve : Curve) : Prop :=
  Origin c = GetEndPoint curve 0 \/ Origin c = GetEndPoint curve 1.

(** Every connector of the list lies at an end of the curve of the element
    that owns it, as the host places the connectors of a new duct, pipe,
    cable tray or conduit. *)
Definition connectors_at_curve_ends
    (mep_elements : list MEPCurve) (connectors : list Connector) : Prop :=
  forall c d,
    In c connectors -> In d mep_elements -> Owner c = Id d ->
    exists curve, Location d = Some curve /\ at_curve_end c curve.

(** * The rest of utils.py and script.py *)

(** ** [Commands] *)

Module Commands.
Definition CREATE_DUCT_NETWORK : string := "Create Duct Network".
Definition CREATE_PIPE_NETWORK : string := "Create Pipe Network".
Definition CREATE_CABLE_TRAY_NETWORK : string := "Create Cable Tray Network".
Definition CREATE_CONDUITS_NETWORK : string := "Create Conduits Network".
End Commands.

(** ** [create_MEPcurve_element]

    The four host constructors, with their arguments in the order the host
    takes them. An id is [None] when nothing was chosen for it. *)

Inductive CreateCall : Type :=
| Duct_Create (system_type_id type_id level_id : option ElementId) (start end_ : XYZ)
| Pipe_Create (system_type_id type_id level_id : option ElementId) (start end_ : XYZ)
| CableTray_Create (type_id : option ElementId) (start end_ : XYZ)
                   (level_id : option ElementId)
| Conduit_Create (type_id : option ElementId) (start end_ : XYZ)
                 (level_id : option ElementId).

(** What a call of [create_MEPcurve_element] comes to: the host constructor
    whose result it returns, or the [ValueError] it raises. *)
Inductive creation : Type :=
| Returns (call : CreateCall)
| ValueError (message : string).

Definition create_MEPcurve_element (command : string)
    (type_id level_id : option ElementId) (start end_ : XYZ)
    (system_type_id : option ElementId) : creation :=
  if String.eqb command Commands.CREATE_DUCT_NETWORK then
    Returns (Duct_Create system_type_id type_id level_id start end_)
  else if String.eqb command Commands.CREATE_PIPE_NETWORK then
    Returns (Pipe_Create system_type_id type_id level_id start end_)
  else if String.eqb command Commands.CREATE_CABLE_TRAY_NETWORK then
    Returns (CableTray_Create type_id start end_ level_id)
  else if String.eqb command Commands.CREATE_CONDUITS_NETWORK then
    Returns (Conduit_Create type_id start end_ level_id)
  else ValueError "Invalid command for creating MEP curve element.".

(** ** [flexform]: the components of the form

    A combo box has a name and the dictionary it offers; what the
    dictionaries hold is of no concern to the code, so their type is left
    open. *)

Inductive Component (Options : Type) : Type :=
| ComboBox (name : string) (options : Options)
| Button (text : string).
Arguments ComboBox {Options} name options.
Arguments Button {Options} text.

(** The list [component] built for a command; [None] when neither branch
    assigns it, in which case building the form raises
    [UnboundLocalError]. [levels_data] stands for [get_levels_data()]. *)
Definition flexform_component {Options} (commad : string)
    (mep_network_types mep_network_systems levels_data : Options)
  : option (list (Component Options)) :=
  if String.eqb commad Commands.CREATE_DUCT_NETWORK
     || String.eqb commad Commands.CREATE_PIPE_NETWORK then
    Some [ComboBox "combobox1" mep_network_types;
          ComboBox "combobox2" mep_network_systems;
          ComboBox "combobox3" levels_data;
          Button "Select"]
  else if String.eqb commad Commands.CREATE_CABLE_TRAY_NETWORK
          || String.eqb commad Commands.CREATE_CONDUITS_NETWORK then
    Some [ComboBox "combobox1" mep_network_types;
          ComboBox "combobox3" levels_data;
          Button "Select"]
  else None.

(** ** script.py: the commands offered and the categories looked up *)

Definition MEP_NETWORKS : list string :=
  [Commands.CREATE_DUCT_NETWORK; Commands.CREATE_PIPE_NETWORK;
   Commands.CREATE_CABLE_TRAY_NETWORK; Commands.CREATE_CONDUITS_NETWORK].

Inductive BuiltInCategory : Type :=
| OST_DuctCurves | OST_DuctSystem | OST_PipeCurves | OST_PipingSystem
| OST_CableTray | OST_Conduit | OST_Levels.

(** Lines 57-72 of the script: the categories whose types fill
    [mep_network_types] and [mep_network_systems]; [None] where the variable
    keeps its initial [None]. *)
Definition network_categories (PICKED_COMMAND : string)
  : option BuiltInCategory * option BuiltInCategory :=
  if String.eqb PICKED_COMMAND Commands.CREATE_DUCT_NETWORK then
    (Some OST_DuctCurves, Some OST_DuctSystem)
  else if String.eqb PICKED_COMMAND Commands.CREATE_PIPE_NETWORK then
    (Some OST_PipeCurves, Some OST_PipingSystem)
  else if String.eqb PICKED_COMMAND Commands.CREATE_CABLE_TRAY_NETWORK then
    (Some OST_CableTray, None)
  else if String.eqb PICKED_COMMAND Commands.CREATE_CONDUITS_NETWORK then
    (Some OST_Conduit, None)
  else (None, None).

(** The element created for a command depends on the system type handed
    in. *)
Definition creation_uses_system_type (command : string) : Prop :=
  exists type_id level_id start end_ system1 system2,
    create_MEPcurve_element command type_id level_id start end_ system1
    <> create_MEPcurve_element command type_id level_id start end_ system2.

(** The form built for a command has a combo box for the system type,
    whatever dictionaries it is built from. *)
Definition form_asks_system_type (commad : string) : Prop :=
  forall (Options : Type) (types systems levels : Options),
  exists component,
    flexform_component commad types systems levels = Some component /\
    In (ComboBox "combobox2" systems) component.

(** ** [get_MEPcurve_elementtypes_by_category] and [get_levels_data]

    A Python [dict] with string keys, as an association list in insertion
    order; [dict(pairs)] sets the items one after the other, so that a key
    met again keeps its place and takes the new value. *)

Definition dict (V : Type) : Type := list (string * V).

Fixpoint dict_setitem {V} (d : dict V) (k : string) (v : V) : dict V :=
  match d with
  | [] => [(k, v)]
  | (k', v') :: rest =>
      if String.eqb k k' then (k', v) :: rest
      else (k', v') :: dict_setitem rest k v
  end.

Definition dict_from_pairs {V} (pairs : list (string * V)) : dict V :=
  fold_left (fun d kv => dict_setitem d (fst kv) (snd kv)) pairs [].

(** [d.get(k, None)] *)
Fixpoint dict_get {V} (d : dict V) (k : string) : option V :=
  match d with
  | [] => None
  | (k', v) :: rest => if String.eqb k k' then Some v else dict_get rest k
  end.

(** An element type of the document, with its id and the string of its
    [SYMBOL_NAME_PARAM] parameter. *)
Record ElementType : Type := mkElementType {
  TypeId : ElementId;
  SYMBOL_NAME_PARAM : string
}.

Record Level : Type := mkLevel {
  LevelId : ElementId;
  Name : string
}.

(** The element types the collector finds in the document for a category are
    an argument of the function, and so are the levels. *)
Definition get_MEPcurve_elementtypes_by_category
    (collector : BuiltInCategory -> list ElementType)
    (builtin_category : BuiltInCategory) : dict ElementType :=
  let element_types := collector builtin_category in
  let names := map SYMBOL_NAME_PARAM element_types in
  dict_from_pairs (combine names element_types).

Definition get_levels_data (levels : list Level) : dict Level :=
  let level_names := map Name levels in
  let levelsdata := dict_from_pairs (combine level_names levels) in
  levelsdata.

(** The last item of a list under a given name. *)
Definition last_named {V} (name : V -> string) (items : list V) (k : string)
  : option V :=
  find (fun v => String.eqb k (name v)) (rev items).

(** ** [flexform], whole

    [show] stands for displaying the form and reading [form.values] back: for
    each combo box name the object chosen, kept as its [Id], or [None]. The
    result is [None] when the call raises. *)


(** ** script.py up to the creation of the elements *)








(** What the loop prints for one failure. *)
Definition printed_failure (e : exn) : list string :=
  [("Error" ++ newline)%string; format_exc e; newline].

(** * Properties *)

(** ** Geometry *)

Lemma DotProduct_self_nonneg (p : XYZ) : 0 <= DotProduct p p.
Proof. unfold DotProduct; nra. Qed.

Lemma GetLength_sqr (p : XYZ) : GetLength p * GetLength p = DotProduct p p.
Proof. apply sqrt_sqrt, DotProduct_self_nonneg. Qed.

Lemma GetLength_pos (p : XYZ) : 0 < DotProduct p p -> 0 < GetLength p.
Proof. intros H; apply sqrt_lt_R0, H. Qed.

Lemma GetLength_neg (p : XYZ) : GetLength (XYZ_neg p) = GetLength p.
Proof. unfold GetLength; f_equal; unfold DotProduct; simpl; ring. Qed.

(** Comparing a distance with a positive bound is comparing squares. *)
Lemma GetLength_lt_iff (p : XYZ) (c : R) :
  0 < c -> (GetLength p < c <-> DotProduct p p < c * c).
Proof.
  intros Hc. unfold GetLength.
  assert (Hs : sqrt (c * c) = c) by (apply sqrt_square; lra).
  split; intros H.
  - apply sqrt_lt_0_alt. rewrite Hs. exact H.
  - rewrite <- Hs. apply sqrt_lt_1_alt. split; [apply DotProduct_self_nonneg | exact H].
Qed.

Lemma DistanceTo_lt_iff (p q : XYZ) (c : R) :
  0 < c ->
  (DistanceTo p q < c <->
   (X p - X q) * (X p - X q) + (Y p - Y q) * (Y p - Y q)
   + (Z p - Z q) * (Z p - Z q) < c * c).
Proof. intros Hc. unfold DistanceTo. rewrite (GetLength_lt_iff _ c Hc). reflexivity. Qed.

Lemma Cauchy_Schwarz (p q : XYZ) :
  DotProduct p q * DotProduct p q <= DotProduct p p * DotProduct q q.
Proof.
  destruct p as [a b c], q as [d e f]; unfold DotProduct; simpl.
  assert (H : (a*a + b*b + c*c) * (d*d + e*e + f*f) - (a*d + b*e + c*f) * (a*d + b*e + c*f)
              = (a*e - b*d) * (a*e - b*d) + (a*f - c*d) * (a*f - c*d)
                + (b*f - c*e) * (b*f - c*e)) by ring.
  pose proof (Rle_0_sqr (a*e - b*d)) as H1.
  pose proof (Rle_0_sqr (a*f - c*d)) as H2.
  pose proof (Rle_0_sqr (b*f - c*e)) as H3.
  unfold Rsqr in H1, H2, H3. lra.
Qed.

(** The cosine handed to [acos] by [AngleTo] lies in [-1, 1]. *)
Lemma cos_AngleTo_range (p q : XYZ) :
  0 < DotProduct p p -> 0 < DotProduct q q ->
  -1 <= DotProduct p q / (GetLength p * GetLength q) <= 1.
Proof.
  intros Hp Hq.
  pose proof (GetLength_pos p Hp) as Lp. pose proof (GetLength_pos q Hq) as Lq.
  pose proof (GetLength_sqr p) as Sp. pose proof (GetLength_sqr q) as Sq.
  pose proof (Cauchy_Schwarz p q) as CS.
  set (lp := GetLength p) in *. set (lq := GetLength q) in *.
  set (d := DotProduct p q) in *.
  assert (Hl : 0 < lp * lq) by nra.
  assert (Hd : d * d <= (lp * lq) * (lp * lq)) by nra.
  assert (Hb : - (lp * lq) <= d <= lp * lq) by nra.
  split.
  - apply Rmult_le_reg_r with (lp * lq); [exact Hl|].
    unfold Rdiv. rewrite Rmult_assoc, Rinv_l by lra. lra.
  - apply Rmult_le_reg_r with (lp * lq); [exact Hl|].
    unfold Rdiv. rewrite Rmult_assoc, Rinv_l by lra. lra.
Qed.

(** [sin (AngleTo p q)] against a positive tolerance, without trigonometry:
    the squared sine is [1 - cos^2]. *)
Lemma sin_AngleTo_lt_iff (p q : XYZ) (t : R) :
  0 < DotProduct p p -> 0 < DotProduct q q -> 0 < t ->
  (sin (AngleTo p q) < t <->
   DotProduct p p * DotProduct q q - DotProduct p q * DotProduct p q
   < t * t * (DotProduct p p * DotProduct q q)).
Proof.
  intros Hp Hq Ht.
  pose proof (cos_AngleTo_range p q Hp Hq) as Hr.
  unfold AngleTo. rewrite (sin_acos _ Hr).
  pose proof (GetLength_pos p Hp) as Lp. pose proof (GetLength_pos q Hq) as Lq.
  pose proof (GetLength_sqr p) as Sp. pose proof (GetLength_sqr q) as Sq.
  set (lp := GetLength p) in *. set (lq := GetLength q) in *.
  set (d := DotProduct p q) in *.
  set (c := d / (lp * lq)) in *.
  assert (Hl : 0 < lp * lq) by nra.
  assert (Hc : c * (lp * lq) = d).
  { unfold c, Rdiv. rewrite Rmult_assoc, Rinv_l by lra. ring. }
  assert (Hs : sqrt (t * t) = t) by (apply sqrt_square; lra).
  assert (Hn : 0 <= 1 - c²) by (unfold Rsqr; nra).
  assert (Hk : (1 - c²) * ((lp * lq) * (lp * lq))
               = DotProduct p p * DotProduct q q - d * d).
  { rewrite <- Hc, <- Sp, <- Sq. unfold Rsqr. ring. }
  assert (Hpq : DotProduct p p * DotProduct q q = (lp * lq) * (lp * lq)) by nra.
  assert (Hll : 0 < (lp * lq) * (lp * lq)) by nra.
  rewrite <- Hk, Hpq.
  split; intros H.
  - assert (H1 : 1 - c² < t * t).
    { apply sqrt_lt_0_alt. rewrite Hs. exact H. }
    apply Rmult_lt_compat_r; assumption.
  - rewrite <- Hs. apply sqrt_lt_1_alt. split; [exact Hn|].
    apply Rmult_lt_reg_r with ((lp * lq) * (lp * lq)); assumption.
Qed.

Lemma Normalize_unit (v : XYZ) : DotProduct v v = 1 -> Normalize v = v.
Proof.
  intros H. unfold Normalize, GetLength. rewrite H, sqrt_1.
  destruct v as [a b c]; unfold XYZ_mul; simpl. f_equal; field.
Qed.

Lemma AngleTo_self (d : XYZ) : 0 < DotProduct d d -> AngleTo d d = 0.
Proof.
  intros H. unfold AngleTo. rewrite GetLength_sqr.
  replace (DotProduct d d / DotProduct d d) with 1 by (field; lra).
  apply acos_1.
Qed.

Lemma AngleTo_neg (d : XYZ) : 0 < DotProduct d d -> AngleTo d (XYZ_neg d) = PI.
Proof.
  intros H. unfold AngleTo. rewrite GetLength_neg, GetLength_sqr.
  replace (DotProduct d (XYZ_neg d)) with (- DotProduct d d)
    by (unfold DotProduct; simpl; ring).
  replace (- DotProduct d d / DotProduct d d) with (Ropp 1) by (field; lra).
  rewrite acos_opp, acos_1. ring.
Qed.

(** ** Running programs *)

Lemma bind_ret {A B} (a : A) (k : A -> M B) (w : World) :
  bind (ret a) k w = k a w.
Proof. reflexivity. Qed.

Lemma bind_lift_Ok {A B} (a : A) (k : A -> M B) (w : World) :
  bind (lift (Ok a)) k w = k a w.
Proof. reflexivity. Qed.

Lemma invoke_calls (doc : Document) (call : FittingCall) (w : World) :
  calls_after (invoke doc call) w = invoked w ++ [call].
Proof. unfold calls_after, invoke. destruct (accepts doc (invoked w) call); reflexivity. Qed.

Lemma invoke_stdout (doc : Document) (call : FittingCall) (w : World) :
  stdout (snd (invoke doc call w)) = stdout w.
Proof. unfold invoke. destruct (accepts doc (invoked w) call); reflexivity. Qed.

(** A shared point exists only between two curve-based locations, and then
    both directions exist. *)
Lemma shared_point_Location (d1 d2 : MEPCurve) (p : XYZ) :
  find_shared_point_between_curves (Location d1) (Location d2) = Some p ->
  exists c1 c2, Location d1 = Some c1 /\ Location d2 = Some c2.
Proof.
  destruct (Location d1) as [c1|], (Location d2) as [c2|]; simpl; try discriminate.
  intros _. exists c1, c2. split; reflexivity.
Qed.

Lemma direction_Some (d : MEPCurve) (c : Curve) :
  Location d = Some c ->
  get_MEPcurve_element_direction d
  = Some (Normalize (XYZ_sub (GetEndPoint c 1) (GetEndPoint c 0))).
Proof. intros H. unfold get_MEPcurve_element_direction. rewrite H. reflexivity. Qed.

Lemma direction_None (d : MEPCurve) :
  Location d = None -> get_MEPcurve_element_direction d = None.
Proof. intros H. unfold get_MEPcurve_element_direction. rewrite H. reflexivity. Qed.

Lemma are_directions_parallel_Some (v1 v2 : XYZ) :
  are_directions_parallel (Some v1) (Some v2) default_tolerance = Ok (parallel v1 v2).
Proof. reflexivity. Qed.

(** ** The classifier, one equation per arity *)

Lemma create_fitting_eq2 (doc : Document) (d1 d2 : MEPCurve) :
  create_fitting doc [d1; d2] =
  match find_shared_point_between_curves (Location d1) (Location d2) with
  | None => ret tt
  | Some intersection =>
      conn1 <- MEPcurve_element_nearest_connector_to_point d1 intersection ;;
      conn2 <- MEPcurve_element_nearest_connector_to_point d2 intersection ;;
      par12 <- lift (are_directions_parallel (get_MEPcurve_element_direction d1)
                       (get_MEPcurve_element_direction d2) default_tolerance) ;;
      if par12 then invoke doc (NewUnionFitting conn1 conn2)
      else invoke doc (NewElbowFitting conn1 conn2)
  end.
Proof. reflexivity. Qed.

Lemma create_fitting_eq3 (doc : Document) (d1 d2 d3 : MEPCurve) :
  create_fitting doc [d1; d2; d3] =
  match find_shared_point_between_curves (Location d1) (Location d2) with
  | None => ret tt
  | Some intersection =>
      conn1 <- MEPcurve_element_nearest_connector_to_point d1 intersection ;;
      conn2 <- MEPcurve_element_nearest_connector_to_point d2 intersection ;;
      conn3 <- MEPcurve_element_nearest_connector_to_point d3 intersection ;;
      par12 <- lift (are_directions_parallel (get_MEPcurve_element_direction d1)
                       (get_MEPcurve_element_direction d2) default_tolerance) ;;
      if par12 then invoke doc (NewTeeFitting conn1 conn2 conn3)
      else
        par13 <- lift (are_directions_parallel (get_MEPcurve_element_direction d1)
                         (get_MEPcurve_element_direction d3) default_tolerance) ;;
        if par13 then invoke doc (NewTeeFitting conn3 conn1 conn2)
        else invoke doc (NewTeeFitting conn3 conn2 conn1)
  end.
Proof. reflexivity. Qed.

Lemma create_fitting_eq4 (doc : Document) (d1 d2 d3 d4 : MEPCurve) :
  create_fitting doc [d1; d2; d3; d4] =
  match find_shared_point_between_curves (Location d1) (Location d2) with
  | None => ret tt
  | Some intersection =>
      conn1 <- MEPcurve_element_nearest_connector_to_point d1 intersection ;;
      conn2 <- MEPcurve_element_nearest_connector_to_point d2 intersection ;;
      conn3 <- MEPcurve_element_nearest_connector_to_point d3 intersection ;;
      conn4 <- MEPcurve_element_nearest_connector_to_point d4 intersection ;;
      par12 <- lift (are_directions_parallel (get_MEPcurve_element_direction d1)
                       (get_MEPcurve_element_direction d2) default_tolerance) ;;
      if par12 then invoke doc (NewCrossFitting conn1 conn2 conn3 conn4)
      else
        par13 <- lift (are_directions_parallel (get_MEPcurve_element_direction d1)
                         (get_MEPcurve_element_direction d3) default_tolerance) ;;
        if par13 then invoke doc (NewCrossFitting conn1 conn3 conn2 conn4)
        else
          par14 <- lift (are_directions_parallel (get_MEPcurve_element_direction d1)
                           (get_MEPcurve_element_direction d4) default_tolerance) ;;
          if par14 then invoke doc (NewCrossFitting conn1 conn4 conn2 conn3)
          else ret tt
  end.
Proof. reflexivity. Qed.

(** ** The classifier once the shared point and the connectors are known *)

Lemma create_fitting_run2
    (doc : Document) (d1 d2 : MEPCurve) (p : XYZ) (conn1 conn2 : Connector)
    (dir1 dir2 : XYZ) (w : World) :
  find_shared_point_between_curves (Location d1) (Location d2) = Some p ->
  MEPcurve_element_nearest_connector_to_point d1 p = ret conn1 ->
  MEPcurve_element_nearest_connector_to_point d2 p = ret conn2 ->
  get_MEPcurve_element_direction d1 = Some dir1 ->
  get_MEPcurve_element_direction d2 = Some dir2 ->
  create_fitting doc [d1; d2] w
  = invoke doc (if parallel dir1 dir2 then NewUnionFitting conn1 conn2
                else NewElbowFitting conn1 conn2) w.
Proof.
  intros Hp H1 H2 D1 D2.
  rewrite create_fitting_eq2, Hp, H1, bind_ret, H2, bind_ret, D1, D2.
  rewrite are_directions_parallel_Some, bind_lift_Ok.
  destruct (parallel dir1 dir2); reflexivity.
Qed.

Lemma create_fitting_run3
    (doc : Document) (d1 d2 d3 : MEPCurve) (p : XYZ)
    (conn1 conn2 conn3 : Connector) (dir1 dir2 : XYZ) (w : World) :
  find_shared_point_between_curves (Location d1) (Location d2) = Some p ->
  MEPcurve_element_nearest_connector_to_point d1 p = ret conn1 ->
  MEPcurve_element_nearest_connector_to_point d2 p = ret conn2 ->
  MEPcurve_element_nearest_connector_to_point d3 p = ret conn3 ->
  get_MEPcurve_element_direction d1 = Some dir1 ->
  get_MEPcurve_element_direction d2 = Some dir2 ->
  create_fitting doc [d1; d2; d3] w
  = if parallel dir1 dir2 then invoke doc (NewTeeFitting conn1 conn2 conn3) w
    else match get_MEPcurve_element_direction d3 with
         | None => (Raise ArgumentNullException, w)
         | Some dir3 =>
             if parallel dir1 dir3
             then invoke doc (NewTeeFitting conn3 conn1 conn2) w
             else invoke doc (NewTeeFitting conn3 conn2 conn1) w
         end.
Proof.
  intros Hp H1 H2 H3 D1 D2.
  rewrite create_fitting_eq3, Hp, H1, bind_ret, H2, bind_ret, H3, bind_ret, D1, D2.
  rewrite are_directions_parallel_Some, bind_lift_Ok.
  destruct (parallel dir1 dir2); [reflexivity|].
  destruct (get_MEPcurve_element_direction d3) as [dir3|]; [|reflexivity].
  rewrite are_directions_parallel_Some, bind_lift_Ok.
  destruct (parallel dir1 dir3); reflexivity.
Qed.

Lemma create_fitting_run4
    (doc : Document) (d1 d2 d3 d4 : MEPCurve) (p : XYZ)
    (conn1 conn2 conn3 conn4 : Connector) (dir1 dir2 : XYZ) (w : World) :
  find_shared_point_between_curves (Location d1) (Location d2) = Some p ->
  MEPcurve_element_nearest_connector_to_point d1 p = ret conn1 ->
  MEPcurve_element_nearest_connector_to_point d2 p = ret conn2 ->
  MEPcurve_element_nearest_connector_to_point d3 p = ret conn3 ->
  MEPcurve_element_nearest_connector_to_point d4 p = ret conn4 ->
  get_MEPcurve_element_direction d1 = Some dir1 ->
  get_MEPcurve_element_direction d2 = Some dir2 ->
  create_fitting doc [d1; d2; d3; d4] w
  = if parallel dir1 dir2
    then invoke doc (NewCrossFitting conn1 conn2 conn3 conn4) w
    else match get_MEPcurve_element_direction d3 with
         | None => (Raise ArgumentNullException, w)
         | Some dir3 =>
             if parallel dir1 dir3
             then invoke doc (NewCrossFitting conn1 conn3 conn2 conn4) w
             else match get_MEPcurve_element_direction d4 with
                  | None => (Raise ArgumentNullException, w)
                  | Some dir4 =>
                      if parallel dir1 dir4
                      then invoke doc (NewCrossFitting conn1 conn4 conn2 conn3) w
                      else (Ok tt, w)
                  end
         end.
Proof.
  intros Hp H1 H2 H3 H4 D1 D2.
  rewrite create_fitting_eq4, Hp, H1, bind_ret, H2, bind_ret, H3, bind_ret,
    H4, bind_ret, D1, D2.
  rewrite are_directions_parallel_Some, bind_lift_Ok.
  destruct (parallel dir1 dir2); [reflexivity|].
  destruct (get_MEPcurve_element_direction d3) as [dir3|]; [|reflexivity].
  rewrite are_directions_parallel_Some, bind_lift_Ok.
  destruct (parallel dir1 dir3); [reflexivity|].
  destruct (get_MEPcurve_element_direction d4) as [dir4|]; [|reflexivity].
  rewrite are_directions_parallel_Some, bind_lift_Ok.
  destruct (parallel dir1 dir4); reflexivity.
Qed.

(** Outside the arities 2 to 4 the function returns at once. *)
Lemma create_fitting_out_of_range (doc : Document) (ducts : list MEPCurve) :
  (List.length ducts < 2 \/ 4 < List.length ducts)%nat ->
  create_fitting doc ducts = ret tt.
Proof.
  intros H. unfold create_fitting.
  replace ((List.length ducts <? 2)%nat || (4 <? List.length ducts)%nat) with true.
  - reflexivity.
  - symmetry. apply orb_true_iff. destruct H as [H | H]; [left | right];
      apply Nat.ltb_lt; exact H.
Qed.

(** Without a shared point the function returns before anything else. *)
Lemma create_fitting_no_shared_point
    (doc : Document) (d1 d2 : MEPCurve) (rest : list MEPCurve) :
  find_shared_point_between_curves (Location d1) (Location d2) = None ->
  create_fitting doc (d1 :: d2 :: rest) = ret tt.
Proof.
  intros H. unfold create_fitting.
  destruct ((List.length (d1 :: d2 :: rest) <? 2)%nat
            || (4 <? List.length (d1 :: d2 :: rest))%nat); [reflexivity|].
  unfold getitem. cbn [nth_error].
  repeat match goal with
         | |- bind (ret ?a) ?k = _ => change (k a = ret tt); cbv beta
         end.
  rewrite H. reflexivity.
Qed.

Lemma DistanceTo_le_iff (p q r s : XYZ) :
  DistanceTo p q <= DistanceTo r s <->
  DotProduct (XYZ_sub p q) (XYZ_sub p q) <= DotProduct (XYZ_sub r s) (XYZ_sub r s).
Proof.
  unfold DistanceTo, GetLength. split; intros H.
  - apply sqrt_le_0; try apply DotProduct_self_nonneg. exact H.
  - apply sqrt_le_1_alt. exact H.
Qed.

(** Deciding a distance test at concrete points. *)
Ltac distance_test :=
  match goal with
  | |- context [Rltb (DistanceTo ?p ?q) ?c] =>
      first
        [ rewrite (proj2 (Rltb_true_iff (DistanceTo p q) c))
            by (apply DistanceTo_lt_iff; simpl; lra)
        | rewrite (proj2 (Rltb_false_iff (DistanceTo p q) c))
            by (rewrite DistanceTo_lt_iff by lra; simpl; lra) ]
  | |- context [Rleb (DistanceTo ?p ?q) (DistanceTo ?r ?s)] =>
      first
        [ rewrite (proj2 (Rleb_true_iff (DistanceTo p q) (DistanceTo r s)))
            by (apply DistanceTo_le_iff; unfold DotProduct; simpl; lra)
        | rewrite (proj2 (Rleb_false_iff (DistanceTo p q) (DistanceTo r s)))
            by (rewrite DistanceTo_le_iff; unfold DotProduct; simpl; lra) ]
  end.

Ltac shared_point_eval :=
  unfold find_shared_point_between_curves; cbn [Location GetEndPoint EndPoint0 EndPoint1];
  cbn [shared_point_outer shared_point_inner];
  repeat (distance_test; cbn [shared_point_outer shared_point_inner]).

Ltac nearest_eval :=
  unfold MEPcurve_element_nearest_connector_to_point, sorted;
  cbn [Connectors fold_right insert_by Origin];
  repeat (distance_test; cbn [insert_by]).

Ltac parallel_true :=
  unfold parallel; apply Rltb_true_iff;
  apply sin_AngleTo_lt_iff; unfold default_tolerance, DotProduct; simpl; lra.

Ltac parallel_false :=
  unfold parallel; apply Rltb_false_iff;
  rewrite sin_AngleTo_lt_iff by (unfold default_tolerance, DotProduct; simpl; lra);
  unfold default_tolerance, DotProduct; simpl; lra.

Module FixtureFacts.
Import Fixture.

Lemma shared_west_east :
  find_shared_point_between_curves (Location duct_west) (Location duct_east)
  = Some meeting.
Proof. unfold duct_west, duct_east, duct. shared_point_eval. reflexivity. Qed.

Lemma shared_west_north :
  find_shared_point_between_curves (Location duct_west) (Location duct_north)
  = Some meeting.
Proof. unfold duct_west, duct_north, duct. shared_point_eval. reflexivity. Qed.

Lemma nearest_west :
  MEPcurve_element_nearest_connector_to_point duct_west meeting
  = ret conn_west.
Proof. unfold duct_west, duct, meeting. nearest_eval. reflexivity. Qed.

Lemma nearest_from_origin (id : ElementId) (far : XYZ) :
  MEPcurve_element_nearest_connector_to_point (duct id origin far) meeting
  = ret (mkConnector origin id).
Proof.
  unfold duct, meeting. unfold MEPcurve_element_nearest_connector_to_point, sorted.
  cbn [Connectors fold_right insert_by Origin].
  rewrite (proj2 (Rleb_true_iff _ _)).
  - reflexivity.
  - apply DistanceTo_le_iff. unfold DotProduct; simpl.
    destruct far as [a b c]; simpl. nra.
Qed.

Lemma nearest_no_curve :
  MEPcurve_element_nearest_connector_to_point no_curve meeting
  = ret conn_no_curve.
Proof. reflexivity. Qed.

Lemma direction_unit (id : ElementId) (a b : XYZ) :
  DotProduct (XYZ_sub b a) (XYZ_sub b a) = 1 ->
  get_MEPcurve_element_direction (duct id a b) = Some (XYZ_sub b a).
Proof.
  intros H. unfold get_MEPcurve_element_direction, duct.
  cbn [Location GetEndPoint EndPoint0 EndPoint1]. rewrite (Normalize_unit _ H).
  reflexivity.
Qed.

Ltac unit_direction := apply direction_unit; unfold DotProduct; simpl; lra.

Lemma direction_west : get_MEPcurve_element_direction duct_west = Some dir_west.
Proof. unit_direction. Qed.
Lemma direction_east : get_MEPcurve_element_direction duct_east = Some dir_east.
Proof. unit_direction. Qed.
Lemma direction_north : get_MEPcurve_element_direction duct_north = Some dir_north.
Proof. unit_direction. Qed.
Lemma direction_south : get_MEPcurve_element_direction duct_south = Some dir_south.
Proof. unit_direction. Qed.
Lemma direction_above : get_MEPcurve_element_direction duct_above = Some dir_above.
Proof. unit_direction. Qed.

Lemma west_east : parallel dir_west dir_east = true.
Proof. parallel_true. Qed.
Lemma west_north : parallel dir_west dir_north = false.
Proof. parallel_false. Qed.
Lemma west_south : parallel dir_west dir_south = false.
Proof. parallel_false. Qed.
Lemma west_above : parallel dir_west dir_above = false.
Proof. parallel_false. Qed.
Lemma north_south : parallel dir_north dir_south = true.
Proof. parallel_true. Qed.
Lemma north_east : parallel dir_north dir_east = false.
Proof. parallel_false. Qed.
Lemma north_above : parallel dir_north dir_above = false.
Proof. parallel_false. Qed.

End FixtureFacts.

(** ** The classifier *)

(** C3: a cluster of exactly two elements with a shared point gets exactly one
    constructor invocation: the union of (conn1, conn2) when the two
    directions are parallel, the elbow of (conn1, conn2) otherwise, the
    connectors in the order of the elements. *)
Theorem union_or_elbow_in_element_order
    (doc : Document) (d1 d2 : MEPCurve) (p : XYZ) (conn1 conn2 : Connector)
    (w : World) :
  find_shared_point_between_curves (Location d1) (Location d2) = Some p ->
  MEPcurve_element_nearest_connector_to_point d1 p = ret conn1 ->
  MEPcurve_element_nearest_connector_to_point d2 p = ret conn2 ->
  exists dir1 dir2,
    get_MEPcurve_element_direction d1 = Some dir1 /\
    get_MEPcurve_element_direction d2 = Some dir2 /\
    let call := if parallel dir1 dir2 then NewUnionFitting conn1 conn2
                else NewElbowFitting conn1 conn2 in
    create_fitting doc [d1; d2] w = invoke doc call w /\
    calls_after (create_fitting doc [d1; d2]) w = invoked w ++ [call].
Proof.
  intros Hp H1 H2.
  destruct (shared_point_Location _ _ _ Hp) as (c1 & c2 & L1 & L2).
  pose proof (direction_Some _ _ L1) as D1.
  pose proof (direction_Some _ _ L2) as D2.
  eexists _, _. split; [exact D1|]. split; [exact D2|].
  cbv zeta.
  pose proof (create_fitting_run2 doc d1 d2 p conn1 conn2 _ _ w Hp H1 H2 D1 D2) as E.
  split; [exact E|].
  unfold calls_after at 1. rewrite E. apply invoke_calls.
Qed.

(** Two collinear ducts sharing an endpoint get one union, and two ducts
    meeting at a right angle get one elbow, with the connector of the first
    element first. *)
Lemma union_or_elbow_witness :
  calls_after (create_fitting Fixture.yes [Fixture.duct_west; Fixture.duct_east])
              Fixture.w0
  = [NewUnionFitting Fixture.conn_west Fixture.conn_east]
  /\
  calls_after (create_fitting Fixture.yes [Fixture.duct_west; Fixture.duct_north])
              Fixture.w0
  = [NewElbowFitting Fixture.conn_west Fixture.conn_north].
Proof.
  split.
  - destruct (union_or_elbow_in_element_order Fixture.yes
                Fixture.duct_west Fixture.duct_east Fixture.meeting
                Fixture.conn_west Fixture.conn_east
                Fixture.w0 FixtureFacts.shared_west_east FixtureFacts.nearest_west
                (FixtureFacts.nearest_from_origin 2 Fixture.east))
      as (dir1 & dir2 & D1 & D2 & _ & C).
    rewrite FixtureFacts.direction_west in D1. injection D1 as <-.
    rewrite FixtureFacts.direction_east in D2. injection D2 as <-.
    rewrite FixtureFacts.west_east in C. exact C.
  - destruct (union_or_elbow_in_element_order Fixture.yes
                Fixture.duct_west Fixture.duct_north Fixture.meeting
                Fixture.conn_west Fixture.conn_north
                Fixture.w0 FixtureFacts.shared_west_north FixtureFacts.nearest_west
                (FixtureFacts.nearest_from_origin 3 Fixture.north))
      as (dir1 & dir2 & D1 & D2 & _ & C).
    rewrite FixtureFacts.direction_west in D1. injection D1 as <-.
    rewrite FixtureFacts.direction_north in D2. injection D2 as <-.
    rewrite FixtureFacts.west_north in C. exact C.
Defined.

(** C1: a cluster of exactly three elements with a shared point gets exactly
    one tee invocation, its arguments chosen by the two tests in priority
    order: (conn1, conn2, conn3) when dir1 is parallel to dir2, else
    (conn3, conn1, conn2) when dir1 is parallel to dir3, else
    (conn3, conn2, conn1); no test of dir2 against dir3 takes part. *)
Theorem tee_argument_order
    (doc : Document) (d1 d2 d3 : MEPCurve) (p : XYZ)
    (conn1 conn2 conn3 : Connector) (curve3 : Curve) (w : World) :
  find_shared_point_between_curves (Location d1) (Location d2) = Some p ->
  MEPcurve_element_nearest_connector_to_point d1 p = ret conn1 ->
  MEPcurve_element_nearest_connector_to_point d2 p = ret conn2 ->
  MEPcurve_element_nearest_connector_to_point d3 p = ret conn3 ->
  Location d3 = Some curve3 ->
  exists dir1 dir2 dir3,
    get_MEPcurve_element_direction d1 = Some dir1 /\
    get_MEPcurve_element_direction d2 = Some dir2 /\
    get_MEPcurve_element_direction d3 = Some dir3 /\
    let call := if parallel dir1 dir2 then NewTeeFitting conn1 conn2 conn3
                else if parallel dir1 dir3 then NewTeeFitting conn3 conn1 conn2
                else NewTeeFitting conn3 conn2 conn1 in
    create_fitting doc [d1; d2; d3] w = invoke doc call w /\
    calls_after (create_fitting doc [d1; d2; d3]) w = invoked w ++ [call].
Proof.
  intros Hp H1 H2 H3 L3.
  destruct (shared_point_Location _ _ _ Hp) as (c1 & c2 & L1 & L2).
  pose proof (direction_Some _ _ L1) as D1.
  pose proof (direction_Some _ _ L2) as D2.
  pose proof (direction_Some _ _ L3) as D3.
  eexists _, _, _. split; [exact D1|]. split; [exact D2|]. split; [exact D3|].
  cbv zeta.
  pose proof (create_fitting_run3 doc d1 d2 d3 p conn1 conn2 conn3 _ _ w
                Hp H1 H2 H3 D1 D2) as E.
  rewrite D3 in E.
  match type of E with
  | _ = ?rhs =>
      match goal with
      | |- _ = invoke doc ?call w /\ _ =>
          assert (R : rhs = invoke doc call w)
            by (destruct (parallel _ _); [reflexivity|];
                destruct (parallel _ _); reflexivity)
      end
  end.
  rewrite R in E. split; [exact E|].
  unfold calls_after at 1. rewrite E. apply invoke_calls.
Qed.

(** Three ducts along the three axes: no two are parallel, and the tee is
    still invoked, on (conn3, conn2, conn1). Three ducts of which the first
    two are collinear: the tee is invoked on (conn1, conn2, conn3). *)
Lemma tee_argument_order_witness :
  (parallel Fixture.dir_north Fixture.dir_above = false /\
   calls_after (create_fitting Fixture.yes
                  [Fixture.duct_west; Fixture.duct_north; Fixture.duct_above])
               Fixture.w0
   = [NewTeeFitting Fixture.conn_above Fixture.conn_north
                    Fixture.conn_west])
  /\
  calls_after (create_fitting Fixture.yes
                 [Fixture.duct_west; Fixture.duct_east; Fixture.duct_north])
              Fixture.w0
  = [NewTeeFitting Fixture.conn_west Fixture.conn_east
                   Fixture.conn_north].
Proof.
  split; [split; [exact FixtureFacts.north_above|]|].
  - destruct (tee_argument_order Fixture.yes
                Fixture.duct_west Fixture.duct_north Fixture.duct_above
                Fixture.meeting
                Fixture.conn_west Fixture.conn_north
                Fixture.conn_above
                (mkCurve Fixture.origin Fixture.above) Fixture.w0
                FixtureFacts.shared_west_north FixtureFacts.nearest_west
                (FixtureFacts.nearest_from_origin 3 Fixture.north)
                (FixtureFacts.nearest_from_origin 5 Fixture.above)
                eq_refl)
      as (dir1 & dir2 & dir3 & D1 & D2 & D3 & _ & C).
    rewrite FixtureFacts.direction_west in D1. injection D1 as <-.
    rewrite FixtureFacts.direction_north in D2. injection D2 as <-.
    rewrite FixtureFacts.direction_above in D3. injection D3 as <-.
    rewrite FixtureFacts.west_north, FixtureFacts.west_above in C. exact C.
  - destruct (tee_argument_order Fixture.yes
                Fixture.duct_west Fixture.duct_east Fixture.duct_north
                Fixture.meeting
                Fixture.conn_west Fixture.conn_east
                Fixture.conn_north
                (mkCurve Fixture.origin Fixture.north) Fixture.w0
                FixtureFacts.shared_west_east FixtureFacts.nearest_west
                (FixtureFacts.nearest_from_origin 2 Fixture.east)
                (FixtureFacts.nearest_from_origin 3 Fixture.north)
                eq_refl)
      as (dir1 & dir2 & dir3 & D1 & D2 & D3 & _ & C).
    rewrite FixtureFacts.direction_west in D1. injection D1 as <-.
    rewrite FixtureFacts.direction_east in D2. injection D2 as <-.
    rewrite FixtureFacts.west_east in C. exact C.
Defined.

(** C2: a cluster of exactly four elements with a shared point tests the
    pairs (1,2), (1,3), (1,4) in that order and invokes the cross once, the
    parallel pair first and the two other connectors last; when none of the
    three pairs is parallel nothing is invoked and nothing is raised. *)
Theorem cross_argument_order
    (doc : Document) (d1 d2 d3 d4 : MEPCurve) (p : XYZ)
    (conn1 conn2 conn3 conn4 : Connector) (curve3 curve4 : Curve) (w : World) :
  find_shared_point_between_curves (Location d1) (Location d2) = Some p ->
  MEPcurve_element_nearest_connector_to_point d1 p = ret conn1 ->
  MEPcurve_element_nearest_connector_to_point d2 p = ret conn2 ->
  MEPcurve_element_nearest_connector_to_point d3 p = ret conn3 ->
  MEPcurve_element_nearest_connector_to_point d4 p = ret conn4 ->
  Location d3 = Some curve3 ->
  Location d4 = Some curve4 ->
  exists dir1 dir2 dir3 dir4,
    get_MEPcurve_element_direction d1 = Some dir1 /\
    get_MEPcurve_element_direction d2 = Some dir2 /\
    get_MEPcurve_element_direction d3 = Some dir3 /\
    get_MEPcurve_element_direction d4 = Some dir4 /\
    create_fitting doc [d1; d2; d3; d4] w
    = (if parallel dir1 dir2
       then invoke doc (NewCrossFitting conn1 conn2 conn3 conn4) w
       else if parallel dir1 dir3
       then invoke doc (NewCrossFitting conn1 conn3 conn2 conn4) w
       else if parallel dir1 dir4
       then invoke doc (NewCrossFitting conn1 conn4 conn2 conn3) w
       else (Ok tt, w)) /\
    calls_after (create_fitting doc [d1; d2; d3; d4]) w
    = invoked w ++
      (if parallel dir1 dir2 then [NewCrossFitting conn1 conn2 conn3 conn4]
       else if parallel dir1 dir3 then [NewCrossFitting conn1 conn3 conn2 conn4]
       else if parallel dir1 dir4 then [NewCrossFitting conn1 conn4 conn2 conn3]
       else []).
Proof.
  intros Hp H1 H2 H3 H4 L3 L4.
  destruct (shared_point_Location _ _ _ Hp) as (c1 & c2 & L1 & L2).
  pose proof (direction_Some _ _ L1) as D1.
  pose proof (direction_Some _ _ L2) as D2.
  pose proof (direction_Some _ _ L3) as D3.
  pose proof (direction_Some _ _ L4) as D4.
  eexists _, _, _, _.
  split; [exact D1|]. split; [exact D2|]. split; [exact D3|]. split; [exact D4|].
  pose proof (create_fitting_run4 doc d1 d2 d3 d4 p conn1 conn2 conn3 conn4 _ _ w
                Hp H1 H2 H3 H4 D1 D2) as E.
  rewrite D3, D4 in E.
  split; [exact E|].
  unfold calls_after at 1. rewrite E.
  repeat (destruct (parallel _ _); [apply (invoke_calls doc)|]).
  simpl. rewrite app_nil_r. reflexivity.
Qed.

(** Four ducts forming two collinear pairs, elements 1 and 3 and elements 2
    and 4: the cross is invoked on (conn1, conn3, conn2, conn4). Four ducts
    of which the first is parallel to none of the others: nothing is invoked
    and the call returns normally. *)
Lemma cross_argument_order_witness :
  calls_after (create_fitting Fixture.yes
                 [Fixture.duct_west; Fixture.duct_north;
                  Fixture.duct_east; Fixture.duct_south])
              Fixture.w0
  = [NewCrossFitting Fixture.conn_west Fixture.conn_east
                     Fixture.conn_north Fixture.conn_south]
  /\
  create_fitting Fixture.yes
    [Fixture.duct_west; Fixture.duct_north; Fixture.duct_above; Fixture.duct_south]
    Fixture.w0
  = (Ok tt, Fixture.w0).
Proof.
  split.
  - destruct (cross_argument_order Fixture.yes
                Fixture.duct_west Fixture.duct_north Fixture.duct_east
                Fixture.duct_south Fixture.meeting
                Fixture.conn_west Fixture.conn_north
                Fixture.conn_east Fixture.conn_south
                (mkCurve Fixture.origin Fixture.east)
                (mkCurve Fixture.origin Fixture.south) Fixture.w0
                FixtureFacts.shared_west_north FixtureFacts.nearest_west
                (FixtureFacts.nearest_from_origin 3 Fixture.north)
                (FixtureFacts.nearest_from_origin 2 Fixture.east)
                (FixtureFacts.nearest_from_origin 4 Fixture.south)
                eq_refl eq_refl)
      as (dir1 & dir2 & dir3 & dir4 & D1 & D2 & D3 & D4 & _ & C).
    rewrite FixtureFacts.direction_west in D1. injection D1 as <-.
    rewrite FixtureFacts.direction_north in D2. injection D2 as <-.
    rewrite FixtureFacts.direction_east in D3. injection D3 as <-.
    rewrite FixtureFacts.west_north, FixtureFacts.west_east in C. exact C.
  - destruct (cross_argument_order Fixture.yes
                Fixture.duct_west Fixture.duct_north Fixture.duct_above
                Fixture.duct_south Fixture.meeting
                Fixture.conn_west Fixture.conn_north
                Fixture.conn_above Fixture.conn_south
                (mkCurve Fixture.origin Fixture.above)
                (mkCurve Fixture.origin Fixture.south) Fixture.w0
                FixtureFacts.shared_west_north FixtureFacts.nearest_west
                (FixtureFacts.nearest_from_origin 3 Fixture.north)
                (FixtureFacts.nearest_from_origin 5 Fixture.above)
                (FixtureFacts.nearest_from_origin 4 Fixture.south)
                eq_refl eq_refl)
      as (dir1 & dir2 & dir3 & dir4 & D1 & D2 & D3 & D4 & E & _).
    rewrite FixtureFacts.direction_west in D1. injection D1 as <-.
    rewrite FixtureFacts.direction_north in D2. injection D2 as <-.
    rewrite FixtureFacts.direction_above in D3. injection D3 as <-.
    rewrite FixtureFacts.direction_south in D4. injection D4 as <-.
    rewrite FixtureFacts.west_north, FixtureFacts.west_above,
      FixtureFacts.west_south in E. exact E.
Defined.

(** *** The position of the branch connector in the tee *)

(** C4, as stated, fails: with the first two ducts collinear and the third
    branching off, the tee receives (conn1, conn2, conn3), the branch
    connector last, and not the branch-first call. *)
Lemma tee_branch_first_counterexample :
  tee_branch Fixture.dir_west Fixture.dir_east Fixture.dir_north
  = 3%nat /\
  calls_after (create_fitting Fixture.yes
                 [Fixture.duct_west; Fixture.duct_east; Fixture.duct_north])
              Fixture.w0
  = [NewTeeFitting Fixture.conn_west Fixture.conn_east Fixture.conn_north] /\
  tee_branch_first 3 Fixture.conn_west Fixture.conn_east Fixture.conn_north
  = NewTeeFitting Fixture.conn_north Fixture.conn_west Fixture.conn_east /\
  calls_after (create_fitting Fixture.yes
                 [Fixture.duct_west; Fixture.duct_east; Fixture.duct_north])
              Fixture.w0
  <> [tee_branch_first 3 Fixture.conn_west Fixture.conn_east Fixture.conn_north].
Proof.
  assert (C : calls_after (create_fitting Fixture.yes
                [Fixture.duct_west; Fixture.duct_east; Fixture.duct_north])
                Fixture.w0
              = [NewTeeFitting Fixture.conn_west Fixture.conn_east Fixture.conn_north]).
  { unfold calls_after.
    rewrite (create_fitting_run3 Fixture.yes Fixture.duct_west Fixture.duct_east
               Fixture.duct_north Fixture.meeting
               Fixture.conn_west Fixture.conn_east Fixture.conn_north
               Fixture.dir_west Fixture.dir_east Fixture.w0
               FixtureFacts.shared_west_east FixtureFacts.nearest_west
               (FixtureFacts.nearest_from_origin 2 Fixture.east)
               (FixtureFacts.nearest_from_origin 3 Fixture.north)
               FixtureFacts.direction_west FixtureFacts.direction_east).
    rewrite FixtureFacts.west_east. reflexivity. }
  split; [unfold tee_branch; rewrite FixtureFacts.west_east; reflexivity|].
  split; [exact C|]. split; [reflexivity|].
  rewrite C. intros H. injection H as H _ _.
  unfold Fixture.conn_west, Fixture.conn_north in H. discriminate H.
Qed.

(** C4, amended: when a tee is created on a cluster of three, the branch
    connector is the last argument; the two through connectors come before
    it, in the order of their elements when the through pair is elements 1
    and 2, and with the third element's connector first otherwise. *)
Theorem tee_branch_last
    (doc : Document) (d1 d2 d3 : MEPCurve) (p : XYZ)
    (conn1 conn2 conn3 : Connector) (curve3 : Curve) (w : World) :
  find_shared_point_between_curves (Location d1) (Location d2) = Some p ->
  MEPcurve_element_nearest_connector_to_point d1 p = ret conn1 ->
  MEPcurve_element_nearest_connector_to_point d2 p = ret conn2 ->
  MEPcurve_element_nearest_connector_to_point d3 p = ret conn3 ->
  Location d3 = Some curve3 ->
  exists dir1 dir2 dir3 a b,
    get_MEPcurve_element_direction d1 = Some dir1 /\
    get_MEPcurve_element_direction d2 = Some dir2 /\
    get_MEPcurve_element_direction d3 = Some dir3 /\
    let branch := tee_branch dir1 dir2 dir3 in
    calls_after (create_fitting doc [d1; d2; d3]) w
    = invoked w ++ [NewTeeFitting a b (branch_connector branch conn1 conn2 conn3)] /\
    (branch = 3%nat -> (a, b) = through_connectors branch conn1 conn2 conn3) /\
    (branch <> 3%nat -> (b, a) = through_connectors branch conn1 conn2 conn3).
Proof.
  intros Hp H1 H2 H3 L3.
  destruct (shared_point_Location _ _ _ Hp) as (c1 & c2 & L1 & L2).
  pose proof (direction_Some _ _ L1) as D1.
  pose proof (direction_Some _ _ L2) as D2.
  pose proof (direction_Some _ _ L3) as D3.
  pose proof (create_fitting_run3 doc d1 d2 d3 p conn1 conn2 conn3 _ _ w
                Hp H1 H2 H3 D1 D2) as E.
  rewrite D3 in E.
  set (dir1 := Normalize (XYZ_sub (GetEndPoint c1 1) (GetEndPoint c1 0))) in *.
  set (dir2 := Normalize (XYZ_sub (GetEndPoint c2 1) (GetEndPoint c2 0))) in *.
  set (dir3 := Normalize (XYZ_sub (GetEndPoint curve3 1) (GetEndPoint curve3 0))) in *.
  exists dir1, dir2, dir3.
  unfold calls_after, tee_branch. rewrite E.
  destruct (parallel dir1 dir2).
  - exists conn1, conn2. repeat split; try assumption.
    + apply (invoke_calls doc).
    + intros H; congruence.
  - destruct (parallel dir1 dir3).
    + exists conn3, conn1. repeat split; try assumption.
      * apply (invoke_calls doc).
      * intros H; discriminate H.
    + exists conn3, conn2. repeat split; try assumption.
      * apply (invoke_calls doc).
      * intros H; discriminate H.
Qed.

(** Elements 1 and 3 collinear, element 2 branching off: the branch is
    element 2, and the tee receives (conn3, conn1, conn2). *)
Lemma tee_branch_last_witness :
  tee_branch Fixture.dir_west Fixture.dir_north Fixture.dir_east
  = 2%nat /\
  calls_after (create_fitting Fixture.yes
                 [Fixture.duct_west; Fixture.duct_north; Fixture.duct_east])
              Fixture.w0
  = [NewTeeFitting Fixture.conn_east Fixture.conn_west Fixture.conn_north].
Proof.
  assert (B : tee_branch Fixture.dir_west Fixture.dir_north
                Fixture.dir_east = 2%nat).
  { unfold tee_branch.
    rewrite FixtureFacts.west_north, FixtureFacts.west_east. reflexivity. }
  split; [exact B|].
  destruct (tee_branch_last Fixture.yes
              Fixture.duct_west Fixture.duct_north Fixture.duct_east
              Fixture.meeting
              Fixture.conn_west Fixture.conn_north Fixture.conn_east
              (mkCurve Fixture.origin Fixture.east) Fixture.w0
              FixtureFacts.shared_west_north FixtureFacts.nearest_west
              (FixtureFacts.nearest_from_origin 3 Fixture.north)
              (FixtureFacts.nearest_from_origin 2 Fixture.east)
              eq_refl)
    as (dir1 & dir2 & dir3 & a & b & D1 & D2 & D3 & R).
  rewrite FixtureFacts.direction_west in D1. injection D1 as <-.
  rewrite FixtureFacts.direction_north in D2. injection D2 as <-.
  rewrite FixtureFacts.direction_east in D3. injection D3 as <-.
  cbv zeta in R. rewrite B in R. destruct R as (C & _ & T).
  assert (N : 2%nat <> 3%nat) by discriminate.
  specialize (T N). simpl in T. injection T as -> ->. exact C.
Defined.

(** ** The arity guard *)

(** C6: a list of fewer than two or more than four elements makes
    [create_fitting] return at once: it is the computation that does nothing,
    whatever the elements are, so no constructor is invoked and nothing of any
    element is consulted; in particular for one element and for five. *)
Theorem create_fitting_arity_guard :
  (forall doc ducts,
      (List.length ducts < 2 \/ 4 < List.length ducts)%nat ->
      create_fitting doc ducts = ret tt /\
      (forall w, run (create_fitting doc ducts) w = (Ok tt, w)) /\
      (forall w, calls_after (create_fitting doc ducts) w = invoked w)) /\
  (forall doc d, create_fitting doc [d] = ret tt) /\
  (forall doc d1 d2 d3 d4 d5,
      create_fitting doc [d1; d2; d3; d4; d5] = ret tt).
Proof.
  split; [|split].
  - intros doc ducts H.
    pose proof (create_fitting_out_of_range doc ducts H) as E.
    split; [exact E|].
    split; intros w; [unfold run | unfold calls_after]; rewrite E; reflexivity.
  - intros doc d. apply create_fitting_out_of_range. left. simpl. lia.
  - intros doc d1 d2 d3 d4 d5. apply create_fitting_out_of_range.
    right. simpl. lia.
Qed.

(** No element at all, and six elements none of which has a connector or a
    curve: nothing happens, also on a document that rejects every fitting. *)
Lemma create_fitting_arity_guard_witness :
  run (create_fitting Fixture.no []) Fixture.w0 = (Ok tt, Fixture.w0) /\
  (let bare := mkMEPCurve 7 None [] in
   create_fitting Fixture.no [bare; bare; bare; bare; bare; bare] = ret tt).
Proof.
  split.
  - refine (proj1 (proj2 (proj1 create_fitting_arity_guard Fixture.no [] _))
              Fixture.w0).
    left. simpl. lia.
  - cbv zeta.
    refine (proj1 (proj1 create_fitting_arity_guard Fixture.no
             [mkMEPCurve 7 None []; mkMEPCurve 7 None []; mkMEPCurve 7 None [];
              mkMEPCurve 7 None []; mkMEPCurve 7 None []; mkMEPCurve 7 None []]
             _)).
    right. simpl. lia.
Defined.

(** ** The shared point *)

Lemma half_is_midpoint (p q : XYZ) : XYZ_mul (XYZ_add p q) 0.5 = midpoint (p, q).
Proof. unfold XYZ_mul, XYZ_add, midpoint; simpl. f_equal; lra. Qed.

Lemma find_shared_point_refines (c1 c2 : Curve) :
  find_shared_point_between_curves (Some c1) (Some c2) = shared_point_spec c1 c2.
Proof.
  unfold find_shared_point_between_curves, shared_point_spec, endpoint_pairs.
  cbn [shared_point_outer shared_point_inner find].
  unfold within_tolerance. cbn [fst snd].
  repeat (destruct (Rltb (DistanceTo _ _) 0.01);
          [cbn [option_map]; rewrite half_is_midpoint; reflexivity|]).
  reflexivity.
Qed.

(** C5: the shared point is taken from the curves of the first two elements
    only: it is the midpoint of the first endpoint pair, in loop order, whose
    distance is strictly below 0.01; when no endpoint pair of those two curves
    is that close, [create_fitting] does nothing, whatever elements follow. *)
Theorem shared_point_of_first_two (c1 c2 : Curve) :
  find_shared_point_between_curves (Some c1) (Some c2)
  = option_map midpoint (find within_tolerance (endpoint_pairs c1 c2)) /\
  (forall pq, within_tolerance pq = true <-> DistanceTo (fst pq) (snd pq) < 0.01) /\
  (forall m,
      find_shared_point_between_curves (Some c1) (Some c2) = Some m ->
      exists pq, In pq (endpoint_pairs c1 c2) /\
                 DistanceTo (fst pq) (snd pq) < 0.01 /\ m = midpoint pq) /\
  ((forall pq, In pq (endpoint_pairs c1 c2) ->
               ~ DistanceTo (fst pq) (snd pq) < 0.01) ->
   forall doc d1 d2 rest,
     Location d1 = Some c1 -> Location d2 = Some c2 ->
     create_fitting doc (d1 :: d2 :: rest) = ret tt /\
     forall w, calls_after (create_fitting doc (d1 :: d2 :: rest)) w = invoked w).
Proof.
  pose proof (find_shared_point_refines c1 c2) as R. unfold shared_point_spec in R.
  split; [exact R|].
  split; [intros pq; apply Rltb_true_iff|].
  split.
  - intros m Hm. rewrite R in Hm.
    destruct (find within_tolerance (endpoint_pairs c1 c2)) as [pq|] eqn:F;
      [|discriminate Hm].
    apply find_some in F. destruct F as [Hin Hclose].
    exists pq. split; [exact Hin|]. split.
    + apply Rltb_true_iff, Hclose.
    + simpl in Hm. congruence.
  - intros Hfar doc d1 d2 rest L1 L2.
    assert (N : find_shared_point_between_curves (Location d1) (Location d2) = None).
    { rewrite L1, L2, R.
      destruct (find within_tolerance (endpoint_pairs c1 c2)) as [pq|] eqn:F;
        [|reflexivity].
      apply find_some in F. destruct F as [Hin Hclose].
      exfalso. apply (Hfar pq Hin). apply Rltb_true_iff, Hclose. }
    pose proof (create_fitting_no_shared_point doc d1 d2 rest N) as E.
    split; [exact E|]. intros w. unfold calls_after. rewrite E. reflexivity.
Qed.

(** A duct ending at the origin and a duct five units away: no endpoint pair
    is within 0.01, and nothing is created, although the two elements that
    follow have neither a curve nor a connector. *)
Lemma shared_point_of_first_two_witness :
  let far := Fixture.duct 8 (mkXYZ 5 0 0) (mkXYZ 6 0 0) in
  let bare := mkMEPCurve 7 None [] in
  create_fitting Fixture.yes [Fixture.duct_west; far; bare; bare] = ret tt.
Proof.
  cbv zeta.
  refine (proj1 (proj2 (proj2 (proj2
            (shared_point_of_first_two (mkCurve Fixture.west Fixture.origin)
               (mkCurve (mkXYZ 5 0 0) (mkXYZ 6 0 0)))))
            _ Fixture.yes Fixture.duct_west
            (Fixture.duct 8 (mkXYZ 5 0 0) (mkXYZ 6 0 0))
            [mkMEPCurve 7 None []; mkMEPCurve 7 None []] eq_refl eq_refl)).
  intros pq Hin. rewrite DistanceTo_lt_iff by lra.
  simpl in Hin.
  destruct Hin as [<- | [<- | [<- | [<- | []]]]]; simpl; lra.
Defined.

(** ** The parallelism test *)

Lemma GetLength_pos_inv (d : XYZ) : 0 < GetLength d -> 0 < DotProduct d d.
Proof.
  intros H. destruct (DotProduct_self_nonneg d) as [Hlt | Heq]; [exact Hlt|].
  unfold GetLength in H. rewrite <- Heq, sqrt_0 in H. lra.
Qed.

(** C7: on two directions the test answers, and it answers true exactly when
    the sine of the angle between them is strictly below 0.01; so a direction
    is parallel to itself and to its opposite. *)
Theorem are_directions_parallel_by_sine :
  (forall v1 v2,
      exists b, are_directions_parallel (Some v1) (Some v2) default_tolerance = Ok b /\
                (b = true <-> sin (AngleTo v1 v2) < 0.01)) /\
  (forall d, 0 < GetLength d ->
             are_directions_parallel (Some d) (Some d) default_tolerance = Ok true) /\
  (forall d, 0 < GetLength d ->
             are_directions_parallel (Some d) (Some (XYZ_neg d)) default_tolerance
             = Ok true).
Proof.
  split; [|split].
  - intros v1 v2. eexists. split; [reflexivity|]. apply Rltb_true_iff.
  - intros d Hd. apply GetLength_pos_inv in Hd. simpl. f_equal.
    apply Rltb_true_iff. rewrite (AngleTo_self d Hd), sin_0.
    unfold default_tolerance. lra.
  - intros d Hd. apply GetLength_pos_inv in Hd. simpl. f_equal.
    apply Rltb_true_iff. rewrite (AngleTo_neg d Hd), sin_PI.
    unfold default_tolerance. lra.
Qed.

(** The direction of the east duct is parallel to itself and to the direction
    pointing west. *)
Lemma are_directions_parallel_by_sine_witness :
  are_directions_parallel (Some (mkXYZ 1 0 0)) (Some (mkXYZ 1 0 0)) default_tolerance
  = Ok true /\
  are_directions_parallel (Some (mkXYZ 1 0 0)) (Some (XYZ_neg (mkXYZ 1 0 0)))
    default_tolerance
  = Ok true.
Proof.
  assert (H : 0 < GetLength (mkXYZ 1 0 0)).
  { apply GetLength_pos. unfold DotProduct; simpl; lra. }
  destruct are_directions_parallel_by_sine as (_ & Hself & Hopp).
  split; [apply (Hself _ H) | apply (Hopp _ H)].
Defined.

(** ** Elements without a curve-based location *)

Lemma insert_by_not_nil {A} (key : A -> R) (x : A) (l : list A) :
  insert_by key x l <> [].
Proof. destruct l as [|y t]; simpl; [|destruct (Rleb (key x) (key y))]; discriminate. Qed.

(** The nearest connector exists exactly when the element has a connector;
    otherwise the subscript [[0]] raises. *)
Lemma nearest_connector_cases (d : MEPCurve) (p : XYZ) :
  (Connectors d <> [] /\
   exists c, MEPcurve_element_nearest_connector_to_point d p = ret c) \/
  (Connectors d = [] /\
   MEPcurve_element_nearest_connector_to_point d p = raise IndexError).
Proof.
  unfold MEPcurve_element_nearest_connector_to_point, sorted.
  destruct (Connectors d) as [|c t]; [right; split; reflexivity|].
  left. split; [discriminate|]. cbn [fold_right].
  destruct (insert_by _ c _) as [|y s] eqn:E.
  - exfalso. exact (insert_by_not_nil _ _ _ E).
  - exists y. reflexivity.
Qed.

Lemma find_shared_point_None_l (c2 : option Curve) :
  find_shared_point_between_curves None c2 = None.
Proof. reflexivity. Qed.

Lemma find_shared_point_None_r (c1 : option Curve) :
  find_shared_point_between_curves c1 None = None.
Proof. destruct c1; reflexivity. Qed.

Lemma has_curve_direction (d : MEPCurve) :
  has_curve d -> exists dir, get_MEPcurve_element_direction d = Some dir.
Proof.
  unfold has_curve, get_MEPcurve_element_direction.
  destruct (Location d) as [c|]; [eexists; reflexivity | congruence].
Qed.

Lemma bind_raise {A B} (e : exn) (k : A -> M B) (w : World) :
  bind (raise e) k w = (Raise e, w).
Proof. reflexivity. Qed.

(** One step through a nearest-connector lookup: either it yields a
    connector, or the run ends on the [IndexError] of an element that has no
    connector. *)
Ltac nearest_step d p :=
  let c := fresh "conn" in
  let N := fresh "N" in
  let E := fresh "E" in
  destruct (nearest_connector_cases d p) as [[_ [c N]] | [E N]];
  [ rewrite N, bind_ret
  | right; left; split;
    [ rewrite N; reflexivity
    | apply Exists_exists; exists d; split; [simpl; tauto | exact E] ] ].

Ltac parallel_step :=
  rewrite are_directions_parallel_Some, bind_lift_Ok;
  destruct (parallel _ _); [right; right; eexists; reflexivity|].

(** With a curve-based location on every element, a run of [create_fitting]
    is a skip, one constructor invocation, or the [IndexError] of an element
    without connectors. *)
Lemma create_fitting_located (doc : Document) (ducts : list MEPCurve) (w : World) :
  Forall has_curve ducts ->
  create_fitting doc ducts w = (Ok tt, w) \/
  (create_fitting doc ducts w = (Raise IndexError, w) /\
   Exists (fun d => Connectors d = []) ducts) \/
  exists call, create_fitting doc ducts w = invoke doc call w.
Proof.
  intros HF.
  destruct ducts as [|d1 [|d2 rest]];
    [left; rewrite create_fitting_out_of_range by (left; simpl; lia); reflexivity ..|].
  destruct (find_shared_point_between_curves (Location d1) (Location d2))
    as [p|] eqn:Hp;
    [|left; rewrite (create_fitting_no_shared_point doc d1 d2 rest Hp); reflexivity].
  inversion HF as [|? ? C1 HF1]; subst. inversion HF1 as [|? ? C2 HF2]; subst.
  destruct (has_curve_direction _ C1) as [dir1 D1].
  destruct (has_curve_direction _ C2) as [dir2 D2].
  destruct rest as [|d3 [|d4 [|d5 rest]]].
  - rewrite create_fitting_eq2, Hp.
    nearest_step d1 p. nearest_step d2 p.
    rewrite D1, D2. parallel_step.
    right; right; eexists; reflexivity.
  - inversion HF2 as [|? ? C3 _]; subst.
    destruct (has_curve_direction _ C3) as [dir3 D3].
    rewrite create_fitting_eq3, Hp.
    nearest_step d1 p. nearest_step d2 p. nearest_step d3 p.
    rewrite D1, D2, D3. parallel_step. parallel_step.
    right; right; eexists; reflexivity.
  - inversion HF2 as [|? ? C3 HF3]; subst. inversion HF3 as [|? ? C4 _]; subst.
    destruct (has_curve_direction _ C3) as [dir3 D3].
    destruct (has_curve_direction _ C4) as [dir4 D4].
    rewrite create_fitting_eq4, Hp.
    nearest_step d1 p. nearest_step d2 p. nearest_step d3 p. nearest_step d4 p.
    rewrite D1, D2, D3, D4. parallel_step. parallel_step. parallel_step.
    left; reflexivity.
  - left. rewrite create_fitting_out_of_range by (right; simpl; lia). reflexivity.
Qed.

Lemma invoke_outcome (doc : Document) (call : FittingCall) (w : World) :
  outcome (invoke doc call) w = Ok tt \/
  outcome (invoke doc call) w = Raise (InvalidOperationException call).
Proof.
  unfold outcome, invoke. destruct (accepts doc (invoked w) call); [left | right];
    reflexivity.
Qed.

(** C10: the guard against a missing curve covers the first two elements
    only. Without a curve-based location on the first or the second element
    there is no shared point and [create_fitting] does nothing. A third or
    fourth element without one has the direction [None], which reaches the
    parallelism test unchecked as soon as the tests before it fail, and the
    call raises. With a curve-based location on every element no direction is
    [None], and with a connector on every element and a host that creates the
    fittings the call completes. *)
Theorem none_guard_covers_first_two :
  (forall doc d1 d2 rest,
      Location d1 = None \/ Location d2 = None ->
      create_fitting doc (d1 :: d2 :: rest) = ret tt) /\
  (forall doc d1 d2 d3 p conn1 conn2 conn3 dir1 dir2 w,
      find_shared_point_between_curves (Location d1) (Location d2) = Some p ->
      MEPcurve_element_nearest_connector_to_point d1 p = ret conn1 ->
      MEPcurve_element_nearest_connector_to_point d2 p = ret conn2 ->
      MEPcurve_element_nearest_connector_to_point d3 p = ret conn3 ->
      get_MEPcurve_element_direction d1 = Some dir1 ->
      get_MEPcurve_element_direction d2 = Some dir2 ->
      Location d3 = None ->
      create_fitting doc [d1; d2; d3] w
      = if parallel dir1 dir2 then invoke doc (NewTeeFitting conn1 conn2 conn3) w
        else (Raise ArgumentNullException, w)) /\
  (forall doc d1 d2 d3 d4 p conn1 conn2 conn3 conn4 dir1 dir2 w,
      find_shared_point_between_curves (Location d1) (Location d2) = Some p ->
      MEPcurve_element_nearest_connector_to_point d1 p = ret conn1 ->
      MEPcurve_element_nearest_connector_to_point d2 p = ret conn2 ->
      MEPcurve_element_nearest_connector_to_point d3 p = ret conn3 ->
      MEPcurve_element_nearest_connector_to_point d4 p = ret conn4 ->
      get_MEPcurve_element_direction d1 = Some dir1 ->
      get_MEPcurve_element_direction d2 = Some dir2 ->
      (Location d3 = None ->
       create_fitting doc [d1; d2; d3; d4] w
       = if parallel dir1 dir2
         then invoke doc (NewCrossFitting conn1 conn2 conn3 conn4) w
         else (Raise ArgumentNullException, w)) /\
      (forall dir3,
          get_MEPcurve_element_direction d3 = Some dir3 ->
          Location d4 = None ->
          create_fitting doc [d1; d2; d3; d4] w
          = if parallel dir1 dir2
            then invoke doc (NewCrossFitting conn1 conn2 conn3 conn4) w
            else if parallel dir1 dir3
            then invoke doc (NewCrossFitting conn1 conn3 conn2 conn4) w
            else (Raise ArgumentNullException, w))) /\
  (forall doc ducts w,
      Forall has_curve ducts ->
      outcome (create_fitting doc ducts) w <> Raise ArgumentNullException /\
      outcome (create_fitting doc ducts) w <> Raise AttributeError) /\
  (forall doc ducts w,
      Forall has_curve ducts ->
      Forall has_connector ducts ->
      (forall history call, accepts doc history call = true) ->
      outcome (create_fitting doc ducts) w = Ok tt).
Proof.
  split; [|split; [|split; [|split]]].
  - intros doc d1 d2 rest [L | L]; apply create_fitting_no_shared_point; rewrite L.
    + apply find_shared_point_None_l.
    + apply find_shared_point_None_r.
  - intros doc d1 d2 d3 p conn1 conn2 conn3 dir1 dir2 w Hp N1 N2 N3 D1 D2 L3.
    rewrite (create_fitting_run3 doc d1 d2 d3 p conn1 conn2 conn3 dir1 dir2 w
               Hp N1 N2 N3 D1 D2).
    rewrite (direction_None d3 L3). reflexivity.
  - intros doc d1 d2 d3 d4 p conn1 conn2 conn3 conn4 dir1 dir2 w Hp N1 N2 N3 N4 D1 D2.
    pose proof (create_fitting_run4 doc d1 d2 d3 d4 p conn1 conn2 conn3 conn4
                  dir1 dir2 w Hp N1 N2 N3 N4 D1 D2) as E.
    split.
    + intros L3. rewrite E, (direction_None d3 L3). reflexivity.
    + intros dir3 D3 L4. rewrite E, D3, (direction_None d4 L4). reflexivity.
  - intros doc ducts w HF. unfold outcome.
    destruct (create_fitting_located doc ducts w HF) as [E | [[E _] | [call E]]];
      rewrite E; try (split; discriminate).
    destruct (invoke_outcome doc call w) as [O | O]; unfold outcome in O;
      rewrite O; split; discriminate.
  - intros doc ducts w HF HC Hacc. unfold outcome.
    destruct (create_fitting_located doc ducts w HF) as [E | [[E X] | [call E]]];
      rewrite E.
    + reflexivity.
    + exfalso. apply Exists_exists in X. destruct X as (d & Hin & Hd).
      rewrite Forall_forall in HC. exact (HC d Hin Hd).
    + unfold invoke. rewrite Hacc. reflexivity.
Qed.

(** A third element without a curve behind two perpendicular ducts: the call
    raises. The same element in first position: nothing happens. Three ducts
    with curves and connectors on a host that creates fittings: the call
    completes. *)
Lemma none_guard_witness :
  create_fitting Fixture.yes
    [Fixture.duct_west; Fixture.duct_north; Fixture.no_curve] Fixture.w0
  = (Raise ArgumentNullException, Fixture.w0) /\
  create_fitting Fixture.yes
    [Fixture.no_curve; Fixture.duct_west; Fixture.duct_north]
  = ret tt /\
  outcome (create_fitting Fixture.yes
             [Fixture.duct_west; Fixture.duct_east; Fixture.duct_north])
          Fixture.w0
  = Ok tt.
Proof.
  destruct none_guard_covers_first_two as (G & T & _ & _ & S).
  split; [|split].
  - rewrite (T Fixture.yes Fixture.duct_west Fixture.duct_north Fixture.no_curve
               Fixture.meeting Fixture.conn_west Fixture.conn_north
               Fixture.conn_no_curve Fixture.dir_west Fixture.dir_north
               Fixture.w0
               FixtureFacts.shared_west_north FixtureFacts.nearest_west
               (FixtureFacts.nearest_from_origin 3 Fixture.north)
               FixtureFacts.nearest_no_curve
               FixtureFacts.direction_west FixtureFacts.direction_north eq_refl).
    rewrite FixtureFacts.west_north. reflexivity.
  - apply G. left. reflexivity.
  - apply S.
    + repeat constructor; discriminate.
    + repeat constructor; discriminate.
    + reflexivity.
Defined.

(** ** Clustering of the connectors *)

Lemma Key_eqb_eq (k1 k2 : Key) : Key_eqb k1 k2 = true <-> k1 = k2.
Proof. unfold Key_eqb. destruct (Key_eq_dec k1 k2); split; congruence. Qed.

Lemma Key_eqb_refl (k : Key) : Key_eqb k k = true.
Proof. apply Key_eqb_eq. reflexivity. Qed.

Lemma Key_eqb_neq (k1 k2 : Key) : k1 <> k2 -> Key_eqb k1 k2 = false.
Proof. unfold Key_eqb. destruct (Key_eq_dec k1 k2); congruence. Qed.

Lemma first_seen_In (ks : list Key) (k : Key) : In k (first_seen ks) <-> In k ks.
Proof.
  induction ks as [|a t IH]; simpl; [tauto|].
  rewrite filter_In, IH. split.
  - intros [H | [H _]]; auto.
  - intros [H | H]; [left; exact H|].
    destruct (Key_eq_dec k a) as [-> | N]; [left; reflexivity|].
    right. split; [exact H|]. rewrite (Key_eqb_neq _ _ N). reflexivity.
Qed.

Lemma first_seen_NoDup (ks : list Key) : NoDup (first_seen ks).
Proof.
  induction ks as [|a t IH]; simpl; constructor.
  - rewrite filter_In. intros [_ H]. rewrite Key_eqb_refl in H. discriminate H.
  - apply NoDup_filter, IH.
Qed.

Lemma first_seen_snoc_new (ks : list Key) (k : Key) :
  ~ In k ks -> first_seen (ks ++ [k]) = first_seen ks ++ [k].
Proof.
  induction ks as [|a t IH]; intros N; simpl; [reflexivity|].
  simpl in N. rewrite IH by tauto. rewrite filter_app. simpl.
  rewrite Key_eqb_neq by (intros E; apply N; left; congruence). reflexivity.
Qed.

Lemma first_seen_snoc_old (ks : list Key) (k : Key) :
  In k ks -> first_seen (ks ++ [k]) = first_seen ks.
Proof.
  induction ks as [|a t IH]; intros H; simpl; [destruct H|].
  destruct (in_dec Key_eq_dec k t) as [I | N].
  - rewrite (IH I). reflexivity.
  - destruct H as [-> | H]; [|contradiction].
    rewrite (first_seen_snoc_new t k N), filter_app. simpl.
    rewrite Key_eqb_refl. simpl. rewrite app_nil_r. reflexivity.
Qed.

Lemma filter_none {A} (f : A -> bool) (l : list A) :
  (forall x, In x l -> f x = false) -> filter f l = [].
Proof.
  induction l as [|a t IH]; intros H; simpl; [reflexivity|].
  rewrite (H a (or_introl eq_refl)). apply IH. intros x Hx. apply H. right. exact Hx.
Qed.

Lemma defaultdict_append_values (grouped : defaultdict) (key : Key) (c : Connector) :
  Permutation (List.concat (values (defaultdict_append grouped key c)))
              (List.concat (values grouped) ++ [c]).
Proof.
  induction grouped as [|[k l] rest IH]; simpl.
  - apply Permutation_refl.
  - destruct (Key_eqb key k); simpl.
    + rewrite <- !app_assoc. apply Permutation_app_head.
      change (c :: List.concat (values rest)) with ([c] ++ List.concat (values rest)).
      apply Permutation_app_comm.
    + rewrite <- app_assoc. apply Permutation_app_head, IH.
Qed.

Section ClusteringFacts.

Variable round : R -> nat -> R.

Lemma group_snoc (cs : list Connector) (c : Connector) :
  group_MEPcuve_element_connectors_by_location round (cs ++ [c])
  = defaultdict_append (group_MEPcuve_element_connectors_by_location round cs)
      (location_key round c) c.
Proof.
  unfold group_MEPcuve_element_connectors_by_location.
  rewrite fold_left_app. reflexivity.
Qed.

Lemma bucket_snoc_other (cs : list Connector) (c : Connector) (k : Key) :
  location_key round c <> k -> bucket round (cs ++ [c]) k = bucket round cs k.
Proof.
  intros N. unfold bucket. rewrite filter_app. simpl.
  rewrite (Key_eqb_neq _ _ N), app_nil_r. reflexivity.
Qed.

Lemma map_bucket_snoc_other (cs : list Connector) (c : Connector) (ks : list Key) :
  ~ In (location_key round c) ks ->
  map (bucket round (cs ++ [c])) ks = map (bucket round cs) ks.
Proof.
  intros N. apply map_ext_in. intros k Hk. apply bucket_snoc_other.
  intros E. apply N. rewrite E. exact Hk.
Qed.

Lemma append_to_buckets_old (cs : list Connector) (c : Connector) (ks : list Key) :
  NoDup ks -> In (location_key round c) ks ->
  defaultdict_append (map (bucket round cs) ks) (location_key round c) c
  = map (bucket round (cs ++ [c])) ks.
Proof.
  induction ks as [|k t IH]; intros ND H; [destruct H|].
  inversion ND as [|? ? Nk NDt]; subst. simpl.
  destruct (Key_eq_dec (location_key round c) k) as [E | N].
  - rewrite E, Key_eqb_refl. f_equal.
    + unfold bucket. rewrite filter_app. simpl. rewrite E, Key_eqb_refl. reflexivity.
    + symmetry. apply map_bucket_snoc_other. rewrite E. exact Nk.
  - rewrite (Key_eqb_neq _ _ N). f_equal.
    + symmetry. apply bucket_snoc_other, N.
    + apply IH; [exact NDt|]. destruct H as [H | H]; [congruence | exact H].
Qed.

Lemma append_to_buckets_new (cs : list Connector) (c : Connector) (ks : list Key) :
  ~ In (location_key round c) ks ->
  defaultdict_append (map (bucket round cs) ks) (location_key round c) c
  = map (bucket round cs) ks ++ [(location_key round c, [c])].
Proof.
  induction ks as [|k t IH]; intros N; simpl; [reflexivity|].
  simpl in N. rewrite Key_eqb_neq by (intros E; apply N; left; congruence).
  rewrite IH by tauto. reflexivity.
Qed.

(** The grouping, in closed form: one bucket per key, the keys in the order
    of their first occurrence. *)
Lemma group_closed_form (cs : list Connector) :
  group_MEPcuve_element_connectors_by_location round cs
  = map (bucket round cs) (first_seen (map (location_key round) cs)).
Proof.
  induction cs as [|c cs IH] using rev_ind; [reflexivity|].
  rewrite group_snoc, IH, map_app. simpl.
  destruct (in_dec Key_eq_dec (location_key round c) (map (location_key round) cs))
    as [I | N].
  - rewrite (first_seen_snoc_old _ _ I).
    apply append_to_buckets_old; [apply first_seen_NoDup | apply first_seen_In, I].
  - rewrite (first_seen_snoc_new _ _ N), map_app. simpl.
    rewrite append_to_buckets_new by (rewrite first_seen_In; exact N).
    rewrite map_bucket_snoc_other by (rewrite first_seen_In; exact N).
    f_equal. unfold bucket. rewrite filter_app. simpl. rewrite Key_eqb_refl.
    replace (filter (fun c0 => Key_eqb (location_key round c0) (location_key round c)) cs)
      with (@nil Connector); [reflexivity|].
    symmetry. apply filter_none.
    intros c0 H0. apply Key_eqb_neq. intros E. apply N. rewrite <- E.
    apply in_map, H0.
Qed.

Lemma group_values_permutation (cs : list Connector) :
  Permutation
    (List.concat (values (group_MEPcuve_element_connectors_by_location round cs))) cs.
Proof.
  induction cs as [|c cs IH] using rev_ind; [apply Permutation_refl|].
  rewrite group_snoc.
  eapply Permutation_trans; [apply defaultdict_append_values|].
  apply Permutation_app_tail, IH.
Qed.

End ClusteringFacts.

(** C8: every connector goes to one group, keyed by the coordinates of its
    origin rounded to 3 decimals; connectors with different keys never share
    a group; the keys come in the order in which each was first seen. *)
Theorem clustering_by_rounded_origin (round : R -> nat -> R) (cs : list Connector) :
  let key := location_key round in
  let grouped := group_MEPcuve_element_connectors_by_location round cs in
  (forall c, key c = (round (X (Origin c)) 3%nat, round (Y (Origin c)) 3%nat,
                      round (Z (Origin c)) 3%nat)) /\
  grouped = map (bucket round cs) (first_seen (map key cs)) /\
  keys grouped = first_seen (map key cs) /\
  NoDup (keys grouped) /\
  (forall c, In c cs -> exists l, In (key c, l) grouped /\ In c l) /\
  (forall k l c, In (k, l) grouped -> In c l -> In c cs /\ key c = k) /\
  (forall c1 c2, key c1 <> key c2 ->
                 forall k l, In (k, l) grouped -> ~ (In c1 l /\ In c2 l)) /\
  Permutation (List.concat (values grouped)) cs.
Proof.
  intros key grouped.
  assert (G : grouped = map (bucket round cs) (first_seen (map key cs)))
    by apply group_closed_form.
  assert (K : keys grouped = first_seen (map key cs)).
  { unfold keys. rewrite G, map_map. simpl. apply map_id. }
  assert (B : forall k l c, In (k, l) grouped -> In c l -> In c cs /\ key c = k).
  { intros k l c Hkl Hc. rewrite G in Hkl. apply in_map_iff in Hkl.
    destruct Hkl as (k' & E & _). unfold bucket in E. injection E as <- <-.
    apply filter_In in Hc. destruct Hc as [Hin Hk].
    split; [exact Hin | apply Key_eqb_eq, Hk]. }
  split; [reflexivity|]. split; [exact G|]. split; [exact K|].
  split; [rewrite K; apply first_seen_NoDup|].
  split; [|split; [exact B|split]].
  - intros c Hc. exists (snd (bucket round cs (key c))). split.
    + rewrite G. apply in_map_iff. exists (key c). split; [reflexivity|].
      apply first_seen_In, in_map, Hc.
    + simpl. apply filter_In. split; [exact Hc | apply Key_eqb_refl].
  - intros c1 c2 N k l Hkl [H1 H2].
    destruct (B k l c1 Hkl H1) as [_ E1]. destruct (B k l c2 Hkl H2) as [_ E2].
    apply N. congruence.
  - apply group_values_permutation.
Qed.

Lemma round_half_away_0 : round_half_away 0 3 = 0.
Proof.
  unfold round_half_away. destruct (Rle_dec 0 0) as [_ | N]; [|exfalso; lra].
  replace (Int_part (0 * 10 ^ 3 + / 2)) with 0%Z.
  - simpl. lra.
  - apply Int_part_spec. simpl. lra.
Qed.

Lemma round_half_away_1 : round_half_away 1 3 = 1.
Proof.
  unfold round_half_away. destruct (Rle_dec 0 1) as [_ | N]; [|exfalso; lra].
  replace (Int_part (1 * 10 ^ 3 + / 2)) with 1000%Z.
  - simpl. lra.
  - apply Int_part_spec. simpl. lra.
Qed.

(** Three connectors, the first at (1,0,0), the next two at the origin: two
    groups, the key (1,0,0) first although it is the larger, and the two
    connectors at the origin together in input order. *)
Lemma clustering_witness :
  group_MEPcuve_element_connectors_by_location round_half_away
    [mkConnector Fixture.east 2; Fixture.conn_west; Fixture.conn_east]
  = [ ((1, 0, 0), [mkConnector Fixture.east 2]);
      ((0, 0, 0), [Fixture.conn_west; Fixture.conn_east]) ].
Proof.
  destruct (clustering_by_rounded_origin round_half_away
              [mkConnector Fixture.east 2; Fixture.conn_west; Fixture.conn_east])
    as (_ & G & _).
  rewrite G. clear G.
  assert (N10 : (1, 0, 0) <> ((0, 0, 0) : Key)) by (intros H; injection H; lra).
  assert (N01 : (0, 0, 0) <> ((1, 0, 0) : Key)) by (intros H; injection H; lra).
  unfold bucket, location_key. simpl.
  rewrite round_half_away_0, round_half_away_1.
  rewrite ?Key_eqb_refl, ?(Key_eqb_neq _ _ N10), ?(Key_eqb_neq _ _ N01). simpl.
  rewrite ?Key_eqb_refl, ?(Key_eqb_neq _ _ N10), ?(Key_eqb_neq _ _ N01). simpl.
  rewrite ?Key_eqb_refl, ?(Key_eqb_neq _ _ N10), ?(Key_eqb_neq _ _ N01). simpl.
  reflexivity.
Defined.

(** ** The loop over the clusters *)

Ltac plan_leaf p :=
  exists p; intros doc w;
  first [ rewrite create_fitting_eq2 | rewrite create_fitting_eq3
        | rewrite create_fitting_eq4 ];
  repeat match goal with
         | H : find_shared_point_between_curves _ _ = _ |- _ => rewrite H
         | H : MEPcurve_element_nearest_connector_to_point _ _ = _ |- _ => rewrite H
         | H : are_directions_parallel _ _ _ = _ |- _ => rewrite H
         end;
  reflexivity.

Ltac plan_nearest d p :=
  let c := fresh "conn" in
  let N := fresh "N" in
  destruct (nearest_connector_cases d p) as [[_ [c N]] | [_ N]];
  [ | plan_leaf (Fail IndexError) ].

Ltac plan_parallel d1 d2 :=
  let P := fresh "P" in
  let e := fresh "e" in
  destruct (are_directions_parallel (get_MEPcurve_element_direction d1)
              (get_MEPcurve_element_direction d2) default_tolerance)
    as [[|]|e] eqn:P;
  [ | | plan_leaf (Fail e) ].

(** The classifier decides what to do from the elements alone: the document
    and the state of the run only decide whether the invocation succeeds. *)
Lemma create_fitting_plan (ducts : list MEPCurve) :
  exists p, forall doc w, create_fitting doc ducts w = execute doc p w.
Proof.
  destruct ducts as [|d1 [|d2 rest]];
    [exists Skip; intros doc w;
     rewrite create_fitting_out_of_range by (left; simpl; lia); reflexivity ..|].
  destruct (find_shared_point_between_curves (Location d1) (Location d2))
    as [p|] eqn:Hp;
    [|exists Skip; intros doc w;
      rewrite (create_fitting_no_shared_point doc d1 d2 rest Hp); reflexivity].
  destruct rest as [|d3 [|d4 [|d5 rest]]].
  - plan_nearest d1 p. plan_nearest d2 p.
    plan_parallel d1 d2.
    + plan_leaf (Call (NewUnionFitting conn conn0)).
    + plan_leaf (Call (NewElbowFitting conn conn0)).
  - plan_nearest d1 p. plan_nearest d2 p. plan_nearest d3 p.
    plan_parallel d1 d2; [plan_leaf (Call (NewTeeFitting conn conn0 conn1))|].
    plan_parallel d1 d3.
    + plan_leaf (Call (NewTeeFitting conn1 conn conn0)).
    + plan_leaf (Call (NewTeeFitting conn1 conn0 conn)).
  - plan_nearest d1 p. plan_nearest d2 p. plan_nearest d3 p. plan_nearest d4 p.
    plan_parallel d1 d2;
      [plan_leaf (Call (NewCrossFitting conn conn0 conn1 conn2))|].
    plan_parallel d1 d3;
      [plan_leaf (Call (NewCrossFitting conn conn1 conn0 conn2))|].
    plan_parallel d1 d4;
      [plan_leaf (Call (NewCrossFitting conn conn2 conn0 conn1))|].
    plan_leaf Skip.
  - exists Skip. intros doc w.
    rewrite create_fitting_out_of_range by (right; simpl; lia). reflexivity.
Qed.

Lemma execute_invoked (doc : Document) (p : plan) (w : World) :
  invoked (snd (execute doc p w)) = invoked w ++ planned_calls p.
Proof.
  destruct p as [|e|call]; simpl; try (rewrite app_nil_r; reflexivity).
  apply (invoke_calls doc call w).
Qed.

Lemma execute_stdout (doc : Document) (p : plan) (w : World) :
  stdout (snd (execute doc p w)) = stdout w.
Proof. destruct p as [|e|call]; simpl; try reflexivity. apply invoke_stdout. Qed.

Lemma fittings_loop_fold (DOC : Document) (mep_elements : list MEPCurve)
    (groups : list (list Connector)) (w : World) :
  fittings_loop DOC mep_elements groups w
  = (Ok tt, fold_left (fun w g => attempt DOC mep_elements g w) groups w).
Proof.
  revert w. induction groups as [|g rest IH]; intros w; [reflexivity|].
  cbn [fittings_loop fold_left]. unfold bind at 1, try_except, attempt.
  destruct (create_fitting DOC _ w) as [[[]|e] w1]; [apply IH|].
  unfold bind, print. simpl. rewrite <- !app_assoc. simpl. apply IH.
Qed.

Lemma attempt_invoked (DOC DOC' : Document) (mep_elements : list MEPCurve)
    (group : list Connector) (w w' : World) :
  invoked w = invoked w' ->
  invoked (attempt DOC mep_elements group w)
  = invoked (attempt DOC' mep_elements group w').
Proof.
  intros H. unfold attempt.
  destruct (create_fitting_plan
              (filter_MEPcurve_elements_using_connectors group mep_elements))
    as [p Hp].
  pose proof (execute_invoked DOC p w) as I.
  pose proof (execute_invoked DOC' p w') as I'.
  rewrite !Hp.
  destruct (execute DOC p w) as [[[]|e] w1];
    destruct (execute DOC' p w') as [[[]|e'] w1']; simpl in *; congruence.
Qed.

Lemma attempts_invoked (DOC DOC' : Document) (mep_elements : list MEPCurve)
    (groups : list (list Connector)) (w w' : World) :
  invoked w = invoked w' ->
  invoked (fold_left (fun w g => attempt DOC mep_elements g w) groups w)
  = invoked (fold_left (fun w g => attempt DOC' mep_elements g w) groups w').
Proof.
  revert w w'. induction groups as [|g rest IH]; intros w w' H; [exact H|].
  simpl. apply IH, attempt_invoked, H.
Qed.

Lemma attempt_failure (DOC : Document) (mep_elements : list MEPCurve)
    (group : list Connector) (w w1 : World) (e : exn) :
  create_fitting DOC
    (filter_MEPcurve_elements_using_connectors group mep_elements) w
  = (Raise e, w1) ->
  attempt DOC mep_elements group w
  = mkWorld (invoked w1)
      (stdout w ++ [("Error" ++ newline)%string; format_exc e; newline]).
Proof.
  intros H. unfold attempt. rewrite H.
  destruct (create_fitting_plan
              (filter_MEPcurve_elements_using_connectors group mep_elements))
    as [p Hp].
  pose proof (execute_stdout DOC p w) as S. rewrite <- Hp, H in S. simpl in S.
  rewrite S. reflexivity.
Qed.

Lemma union_west_east (doc : Document) (w : World) :
  create_fitting doc [Fixture.duct_west; Fixture.duct_east] w
  = invoke doc (NewUnionFitting Fixture.conn_west Fixture.conn_east) w.
Proof.
  rewrite (create_fitting_run2 doc Fixture.duct_west Fixture.duct_east
             Fixture.meeting Fixture.conn_west Fixture.conn_east
             Fixture.dir_west Fixture.dir_east w
             FixtureFacts.shared_west_east FixtureFacts.nearest_west
             (FixtureFacts.nearest_from_origin 2 Fixture.east)
             FixtureFacts.direction_west FixtureFacts.direction_east).
  rewrite FixtureFacts.west_east. reflexivity.
Qed.

(** C9, as stated, fails in its last part: on the cluster of two collinear
    ducts, a host that rejects the union and a host that creates it leave the
    loop with the same value, although the first run had a failure and the
    second had none; the failure is only in the printed output. *)
Lemma no_failure_report_counterexample :
  let elements := [Fixture.duct_west; Fixture.duct_east] in
  let groups := [[Fixture.conn_west; Fixture.conn_east]] in
  let union := NewUnionFitting Fixture.conn_west Fixture.conn_east in
  cluster_failures Fixture.no elements groups Fixture.w0
  = [InvalidOperationException union] /\
  cluster_failures Fixture.yes elements groups Fixture.w0 = [] /\
  fittings_loop Fixture.no elements groups Fixture.w0
  = (Ok tt, mkWorld [union]
              [("Error" ++ newline)%string; "InvalidOperationException"%string;
               newline]) /\
  fittings_loop Fixture.yes elements groups Fixture.w0
  = (Ok tt, mkWorld [union] []) /\
  ~ reports_failures_to_caller.
Proof.
  cbv zeta.
  assert (F : filter_MEPcurve_elements_using_connectors
                [Fixture.conn_west; Fixture.conn_east]
                [Fixture.duct_west; Fixture.duct_east]
              = [Fixture.duct_west; Fixture.duct_east]) by reflexivity.
  assert (Cno : cluster_failures Fixture.no [Fixture.duct_west; Fixture.duct_east]
                  [[Fixture.conn_west; Fixture.conn_east]] Fixture.w0
                = [InvalidOperationException
                     (NewUnionFitting Fixture.conn_west Fixture.conn_east)]).
  { cbn [cluster_failures]. unfold outcome. rewrite F, union_west_east. reflexivity. }
  assert (Cyes : cluster_failures Fixture.yes [Fixture.duct_west; Fixture.duct_east]
                   [[Fixture.conn_west; Fixture.conn_east]] Fixture.w0 = []).
  { cbn [cluster_failures]. unfold outcome. rewrite F, union_west_east. reflexivity. }
  assert (Lno : fittings_loop Fixture.no [Fixture.duct_west; Fixture.duct_east]
                  [[Fixture.conn_west; Fixture.conn_east]] Fixture.w0
                = (Ok tt, mkWorld [NewUnionFitting Fixture.conn_west Fixture.conn_east]
                            [("Error" ++ newline)%string;
                             "InvalidOperationException"%string; newline])).
  { rewrite fittings_loop_fold. cbn [fold_left]. unfold attempt.
    rewrite F, union_west_east. reflexivity. }
  assert (Lyes : fittings_loop Fixture.yes [Fixture.duct_west; Fixture.duct_east]
                   [[Fixture.conn_west; Fixture.conn_east]] Fixture.w0
                 = (Ok tt, mkWorld [NewUnionFitting Fixture.conn_west Fixture.conn_east]
                             [])).
  { rewrite fittings_loop_fold. cbn [fold_left]. unfold attempt.
    rewrite F, union_west_east. reflexivity. }
  split; [exact Cno|]. split; [exact Cyes|]. split; [exact Lno|]. split; [exact Lyes|].
  intros [report R].
  pose proof (R Fixture.no [Fixture.duct_west; Fixture.duct_east]
                [[Fixture.conn_west; Fixture.conn_east]] Fixture.w0) as Rno.
  pose proof (R Fixture.yes [Fixture.duct_west; Fixture.duct_east]
                [[Fixture.conn_west; Fixture.conn_east]] Fixture.w0) as Ryes.
  unfold outcome in Rno, Ryes. rewrite Lno, Cno in Rno. rewrite Lyes, Cyes in Ryes.
  simpl in Rno, Ryes. congruence.
Qed.

(** C9, amended: the loop catches the failure of a cluster, prints it (the
    line "Error", the traceback, an empty line) and goes on with the next
    cluster from the state the failed one left; it never raises, and the
    constructor invocations it makes are the same whichever of them fail. It
    hands no value back: the failures are in the printed output only. *)
Theorem fittings_loop_isolates_failures
    (DOC : Document) (mep_elements : list MEPCurve)
    (groups : list (list Connector)) (w : World) :
  fittings_loop DOC mep_elements groups w
  = (Ok tt, fold_left (fun w g => attempt DOC mep_elements g w) groups w) /\
  outcome (fittings_loop DOC mep_elements groups) w = Ok tt /\
  (forall round connectors,
      create_fittings round DOC mep_elements connectors w
      = (Ok tt,
         fold_left (fun w g => attempt DOC mep_elements g w)
           (values (group_MEPcuve_element_connectors_by_location round connectors))
           w)) /\
  (forall group w0 w1 e,
      create_fitting DOC
        (filter_MEPcurve_elements_using_connectors group mep_elements) w0
      = (Raise e, w1) ->
      attempt DOC mep_elements group w0
      = mkWorld (invoked w1)
          (stdout w0 ++ [("Error" ++ newline)%string; format_exc e; newline])) /\
  (forall group w0 w1,
      create_fitting DOC
        (filter_MEPcurve_elements_using_connectors group mep_elements) w0
      = (Ok tt, w1) ->
      attempt DOC mep_elements group w0 = w1) /\
  (forall DOC',
      calls_after (fittings_loop DOC mep_elements groups) w
      = calls_after (fittings_loop DOC' mep_elements groups) w).
Proof.
  pose proof (fittings_loop_fold DOC mep_elements groups w) as E.
  split; [exact E|].
  split; [unfold outcome; rewrite E; reflexivity|].
  split; [intros round connectors; unfold create_fittings; apply fittings_loop_fold|].
  split; [intros group w0 w1 e H; apply attempt_failure, H|].
  split; [intros group w0 w1 H; unfold attempt; rewrite H; reflexivity|].
  intros DOC'. unfold calls_after. rewrite E, fittings_loop_fold. simpl.
  apply attempts_invoked. reflexivity.
Qed.

Module ThreeInARowFacts.
Import ThreeInARow.

Lemma shared_east_far :
  find_shared_point_between_curves (Location Fixture.duct_east) (Location duct_far)
  = Some meeting_east.
Proof.
  unfold Fixture.duct_east, duct_far, Fixture.duct. shared_point_eval. reflexivity.
Qed.

Lemma nearest_east :
  MEPcurve_element_nearest_connector_to_point Fixture.duct_east meeting_east
  = ret conn_east_end.
Proof.
  unfold Fixture.duct_east, Fixture.duct, meeting_east. nearest_eval. reflexivity.
Qed.

Lemma nearest_far :
  MEPcurve_element_nearest_connector_to_point duct_far meeting_east
  = ret conn_far_start.
Proof. unfold duct_far, Fixture.duct, meeting_east. nearest_eval. reflexivity. Qed.

Lemma direction_far : get_MEPcurve_element_direction duct_far = Some dir_far.
Proof. apply FixtureFacts.direction_unit. unfold DotProduct; simpl; lra. Qed.

Lemma east_far : parallel Fixture.dir_east dir_far = true.
Proof. parallel_true. Qed.

Lemma union_east_far (doc : Document) (w : World) :
  create_fitting doc [Fixture.duct_east; duct_far] w
  = invoke doc (NewUnionFitting conn_east_end conn_far_start) w.
Proof.
  rewrite (create_fitting_run2 doc Fixture.duct_east duct_far meeting_east
             conn_east_end conn_far_start Fixture.dir_east dir_far w
             shared_east_far nearest_east nearest_far
             FixtureFacts.direction_east direction_far).
  rewrite east_far. reflexivity.
Qed.

End ThreeInARowFacts.

(** Three ducts in a row and the two clusters where they meet, on a host that
    rejects the first fitting it is asked for: the first union fails and is
    printed, the second union is still invoked, and the loop ends normally. *)
Lemma fittings_loop_witness :
  fittings_loop ThreeInARow.rejects_first ThreeInARow.elements ThreeInARow.groups Fixture.w0
  = (Ok tt,
     mkWorld [NewUnionFitting Fixture.conn_west Fixture.conn_east;
              NewUnionFitting ThreeInARow.conn_east_end ThreeInARow.conn_far_start]
             [("Error" ++ newline)%string; "InvalidOperationException"%string;
              newline]).
Proof.
  destruct (fittings_loop_isolates_failures ThreeInARow.rejects_first ThreeInARow.elements
              ThreeInARow.groups Fixture.w0) as (E & _).
  rewrite E. unfold ThreeInARow.groups. cbn [fold_left]. unfold attempt.
  change (filter_MEPcurve_elements_using_connectors
            [Fixture.conn_west; Fixture.conn_east] ThreeInARow.elements)
    with [Fixture.duct_west; Fixture.duct_east].
  rewrite union_west_east.
  change (filter_MEPcurve_elements_using_connectors
            [ThreeInARow.conn_east_end; ThreeInARow.conn_far_start] ThreeInARow.elements)
    with [Fixture.duct_east; ThreeInARow.duct_far].
  cbn [invoke ThreeInARow.rejects_first accepts Fixture.w0 invoked stdout app].
  rewrite ThreeInARowFacts.union_east_far. reflexivity.
Defined.

(** * Further properties of the code *)

(** ** [MEPcurve_element_nearest_connector_to_point] *)

Lemma hd_insert_by {A} (key : A -> R) (x : A) (l : list A) :
  hd_error (insert_by key x l)
  = Some (match l with
          | [] => x
          | y :: _ => if Rleb (key x) (key y) then x else y
          end).
Proof. destruct l as [|y t]; simpl; [|destruct (Rleb (key x) (key y))]; reflexivity. Qed.

(** The head of [sorted(lst, key)] is the first element of [lst] whose key
    is minimal. *)
Lemma sorted_head_first_minimum {A} (key : A -> R) (l : list A) :
  match hd_error (sorted l key) with
  | None => l = []
  | Some c =>
      exists before after,
        l = before ++ c :: after /\
        (forall x, In x before -> key c < key x) /\
        (forall x, In x after -> key c <= key x)
  end.
Proof.
  induction l as [|x t IH]; [reflexivity|].
  unfold sorted in *. cbn [fold_right]. rewrite hd_insert_by.
  destruct (fold_right (insert_by key) [] t) as [|y s]; cbn [hd_error] in IH.
  - subst t. exists [], []. split; [reflexivity|]. split; intros z [].
  - destruct IH as (b & a & E & Hb & Ha).
    destruct (Rleb (key x) (key y)) eqn:L.
    + apply Rleb_true_iff in L. exists [], t. split; [reflexivity|].
      split; [intros z []|]. intros z Hz. rewrite E in Hz.
      apply in_app_or in Hz. destruct Hz as [Hz | [<- | Hz]].
      * specialize (Hb z Hz). lra.
      * exact L.
      * specialize (Ha z Hz). lra.
    + apply Rleb_false_iff in L. exists (x :: b), a. split; [rewrite E; reflexivity|].
      split; [|exact Ha]. intros z [<- | Hz]; [lra | apply Hb, Hz].
Qed.

(** X1: the nearest connector is a connector of the element at minimal
    distance from the point, and among connectors at that distance the first
    one in the element's enumeration; an element without connectors makes the
    subscript raise [IndexError]. *)
Theorem nearest_connector_first_minimum (d : MEPCurve) (p : XYZ) :
  (Connectors d = [] ->
   MEPcurve_element_nearest_connector_to_point d p = raise IndexError) /\
  (Connectors d <> [] ->
   exists c before after,
     MEPcurve_element_nearest_connector_to_point d p = ret c /\
     Connectors d = before ++ c :: after /\
     (forall x, In x before -> DistanceTo (Origin c) p < DistanceTo (Origin x) p) /\
     (forall x, In x after -> DistanceTo (Origin c) p <= DistanceTo (Origin x) p)).
Proof.
  unfold MEPcurve_element_nearest_connector_to_point, getitem.
  split.
  - intros E. rewrite E. reflexivity.
  - intros N.
    pose proof (sorted_head_first_minimum
                  (fun c => DistanceTo (Origin c) p) (Connectors d)) as H.
    destruct (sorted (Connectors d) (fun c => DistanceTo (Origin c) p)) as [|c s];
      cbn [hd_error nth_error] in *; [contradiction|].
    destruct H as (b & a & E & Hb & Ha).
    exists c, b, a. repeat split; assumption.
Qed.

(** A point halfway along a duct is equally far from its two connectors: the
    first connector of the enumeration is the nearest one. *)
Lemma nearest_connector_witness :
  MEPcurve_element_nearest_connector_to_point Fixture.duct_east (mkXYZ (1 / 2) 0 0)
  = ret (mkConnector Fixture.origin 2).
Proof.
  destruct (proj2 (nearest_connector_first_minimum Fixture.duct_east
                     (mkXYZ (1 / 2) 0 0)))
    as (c & b & a & E & L & Hb & _); [discriminate|].
  rewrite E. f_equal.
  destruct b as [|x b]; simpl in L.
  - injection L as L _. symmetry. exact L.
  - exfalso. injection L as Lx L.
    assert (Hc : c = mkConnector Fixture.east 2).
    { destruct b as [|y b]; simpl in L; [injection L as L _; symmetry; exact L|].
      injection L as _ L. destruct b; discriminate L. }
    specialize (Hb x (or_introl eq_refl)). rewrite Hc, <- Lx in Hb.
    assert (Hle : DistanceTo (Origin (mkConnector Fixture.origin 2)) (mkXYZ (1 / 2) 0 0)
                  <= DistanceTo (Origin (mkConnector Fixture.east 2)) (mkXYZ (1 / 2) 0 0)).
    { apply DistanceTo_le_iff. unfold DotProduct; simpl; lra. }
    lra.
Defined.

(** ** [filter_MEPcurve_elements_using_connectors] *)

Lemma owner_test_iff (connectors : list Connector) (e : MEPCurve) :
  existsb (Nat.eqb (Id e)) (map Owner connectors) = true
  <-> In (Id e) (map Owner connectors).
Proof.
  rewrite existsb_exists. split.
  - intros (id & Hin & E). apply Nat.eqb_eq in E. rewrite E. exact Hin.
  - intros H. exists (Id e). split; [exact H | apply Nat.eqb_refl].
Qed.

(** X2: the filter keeps exactly the elements owning one of the connectors,
    in the order of the element list; the order and the repetitions of the
    connectors play no part. *)
Theorem filter_elements_by_owner
    (connectors : list Connector) (all_MEPcurve_elements : list MEPCurve) :
  (forall e,
      In e (filter_MEPcurve_elements_using_connectors connectors all_MEPcurve_elements)
      <-> In e all_MEPcurve_elements /\ exists c, In c connectors /\ Owner c = Id e) /\
  (forall connectors',
      (forall id, In id (map Owner connectors) <-> In id (map Owner connectors')) ->
      filter_MEPcurve_elements_using_connectors connectors' all_MEPcurve_elements
      = filter_MEPcurve_elements_using_connectors connectors all_MEPcurve_elements) /\
  (forall front back,
      all_MEPcurve_elements = front ++ back ->
      filter_MEPcurve_elements_using_connectors connectors all_MEPcurve_elements
      = filter_MEPcurve_elements_using_connectors connectors front
        ++ filter_MEPcurve_elements_using_connectors connectors back) /\
  (NoDup all_MEPcurve_elements ->
   NoDup (filter_MEPcurve_elements_using_connectors connectors all_MEPcurve_elements)).
Proof.
  unfold filter_MEPcurve_elements_using_connectors.
  split; [|split; [|split]].
  - intros e. rewrite filter_In, owner_test_iff, in_map_iff.
    split; intros [H (c & A & B)]; (split; [exact H|]); exists c; tauto.
  - intros connectors' Hsame. apply filter_ext. intros e.
    destruct (existsb (Nat.eqb (Id e)) (map Owner connectors)) eqn:E.
    + apply owner_test_iff. apply Hsame. apply owner_test_iff. exact E.
    + destruct (existsb (Nat.eqb (Id e)) (map Owner connectors')) eqn:E';
        [|reflexivity].
      apply owner_test_iff in E'. apply Hsame in E'. apply owner_test_iff in E'.
      congruence.
  - intros front back ->. apply filter_app.
  - intros ND. apply NoDup_filter, ND.
Qed.

(** The connectors at the origin of the east and the west duct, in that
    order and with a repetition, select the west duct and then the east
    duct: the order of the element list. *)
Lemma filter_elements_witness :
  filter_MEPcurve_elements_using_connectors
    [Fixture.conn_east; Fixture.conn_west; Fixture.conn_east]
    [Fixture.duct_west; Fixture.duct_north; Fixture.duct_east]
  = [Fixture.duct_west; Fixture.duct_east].
Proof.
  rewrite (proj1 (proj2 (filter_elements_by_owner
                           [Fixture.conn_west; Fixture.conn_east]
                           [Fixture.duct_west; Fixture.duct_north; Fixture.duct_east]))
             [Fixture.conn_east; Fixture.conn_west; Fixture.conn_east]).
  - reflexivity.
  - intros id. simpl. tauto.
Defined.

Lemma filter_at_most_one {A} (f : A -> bool) (tag : A -> nat) (id : nat)
    (l : list A) :
  NoDup (map tag l) ->
  (forall x, f x = true -> tag x = id) ->
  (List.length (filter f l) <= 1)%nat.
Proof.
  intros ND Hf. induction l as [|a t IH]; simpl; [lia|].
  inversion ND as [|? ? Na NDt]; subst.
  destruct (f a) eqn:Fa; [|apply IH, NDt].
  rewrite (filter_none f t); [simpl; lia|].
  intros x Hx. destruct (f x) eqn:Fx; [|reflexivity].
  exfalso. apply Na. rewrite (Hf a Fa), <- (Hf x Fx). apply in_map, Hx.
Qed.

(** X3: a cluster whose connectors all belong to one element (a dangling
    end) gets no fitting, whenever the elements have distinct ids: the filter
    yields at most one element and [create_fitting] returns at once. *)
Theorem dangling_end_is_skipped
    (DOC : Document) (mep_elements : list MEPCurve) (group : list Connector)
    (id : ElementId) :
  NoDup (map Id mep_elements) ->
  (forall c, In c group -> Owner c = id) ->
  (List.length (filter_MEPcurve_elements_using_connectors group mep_elements) <= 1)%nat /\
  create_fitting DOC (filter_MEPcurve_elements_using_connectors group mep_elements)
  = ret tt /\
  forall w, attempt DOC mep_elements group w = w.
Proof.
  intros ND Hown.
  assert (L : (List.length
                 (filter_MEPcurve_elements_using_connectors group mep_elements) <= 1)%nat).
  { unfold filter_MEPcurve_elements_using_connectors.
    apply (filter_at_most_one _ Id id _ ND).
    intros e He. apply owner_test_iff, in_map_iff in He.
    destruct He as (c & E & Hc). rewrite <- E. apply Hown, Hc. }
  assert (E : create_fitting DOC
                (filter_MEPcurve_elements_using_connectors group mep_elements) = ret tt)
    by (apply create_fitting_out_of_range; left; lia).
  split; [exact L|]. split; [exact E|].
  intros w. unfold attempt. rewrite E. reflexivity.
Qed.

(** The far end of the west duct, alone in its cluster. *)
Lemma dangling_end_witness :
  create_fitting Fixture.no
    (filter_MEPcurve_elements_using_connectors
       [mkConnector Fixture.west 1]
       [Fixture.duct_west; Fixture.duct_east; Fixture.duct_north])
  = ret tt.
Proof.
  refine (proj1 (proj2 (dangling_end_is_skipped Fixture.no
            [Fixture.duct_west; Fixture.duct_east; Fixture.duct_north]
            [mkConnector Fixture.west 1] 1 _ _))).
  - simpl. repeat constructor; simpl; intuition discriminate.
  - intros c [<- | []]. reflexivity.
Defined.

(** ** [find_shared_point_between_curves] *)

Lemma DistanceTo_comm (p q : XYZ) : DistanceTo p q = DistanceTo q p.
Proof.
  unfold DistanceTo, GetLength. f_equal. unfold DotProduct, XYZ_sub; simpl. ring.
Qed.

Lemma midpoint_half_distance (p q : XYZ) :
  DistanceTo p q < 0.01 ->
  DistanceTo (midpoint (p, q)) p < 0.005 /\ DistanceTo (midpoint (p, q)) q < 0.005.
Proof.
  intros H. apply DistanceTo_lt_iff in H; [|lra].
  split; apply DistanceTo_lt_iff; try lra; unfold midpoint; simpl; nra.
Qed.

(** X4: a shared point is found only for two endpoints, one of each curve,
    less than 0.01 apart, and it lies less than 0.005 from both. *)
Theorem shared_point_close_to_both_endpoints (c1 c2 : Curve) (m : XYZ) :
  find_shared_point_between_curves (Some c1) (Some c2) = Some m ->
  exists i j,
    (i <= 1)%nat /\ (j <= 1)%nat /\
    DistanceTo (GetEndPoint c1 i) (GetEndPoint c2 j) < 0.01 /\
    DistanceTo m (GetEndPoint c1 i) < 0.005 /\
    DistanceTo m (GetEndPoint c2 j) < 0.005.
Proof.
  intros H. rewrite find_shared_point_refines in H. unfold shared_point_spec in H.
  destruct (find within_tolerance (endpoint_pairs c1 c2)) as [pq|] eqn:F;
    [|discriminate H].
  simpl in H. injection H as <-.
  apply find_some in F. destruct F as [Hin Hclose].
  apply Rltb_true_iff in Hclose.
  destruct (midpoint_half_distance (fst pq) (snd pq)) as [M1 M2]; [exact Hclose|].
  replace (fst pq, snd pq) with pq in * by (destruct pq; reflexivity).
  simpl in Hin.
  destruct Hin as [<- | [<- | [<- | [<- | []]]]];
    [exists 0%nat, 0%nat | exists 0%nat, 1%nat | exists 1%nat, 0%nat
     | exists 1%nat, 1%nat];
    (split; [lia|]; split; [lia|]; split; [exact Hclose|]; split; assumption).
Qed.

(** The ducts meeting at the origin: their shared point is the origin's
    midpoint with itself, within 0.005 of the end of the west duct and of the
    start of the east duct. *)
Lemma shared_point_close_witness :
  exists i j,
    (i <= 1)%nat /\ (j <= 1)%nat /\
    DistanceTo (GetEndPoint (mkCurve Fixture.west Fixture.origin) i)
               (GetEndPoint (mkCurve Fixture.origin Fixture.east) j) < 0.01 /\
    DistanceTo Fixture.meeting (GetEndPoint (mkCurve Fixture.west Fixture.origin) i)
    < 0.005 /\
    DistanceTo Fixture.meeting (GetEndPoint (mkCurve Fixture.origin Fixture.east) j)
    < 0.005.
Proof.
  apply (shared_point_close_to_both_endpoints
           (mkCurve Fixture.west Fixture.origin) (mkCurve Fixture.origin Fixture.east)
           Fixture.meeting).
  exact FixtureFacts.shared_west_east.
Defined.

Lemma find_shared_point_None_iff (c1 c2 : Curve) :
  find_shared_point_between_curves (Some c1) (Some c2) = None <->
  (forall i j, (i <= 1)%nat -> (j <= 1)%nat ->
               ~ DistanceTo (GetEndPoint c1 i) (GetEndPoint c2 j) < 0.01).
Proof.
  rewrite find_shared_point_refines. unfold shared_point_spec. split.
  - intros H i j Hi Hj Hclose.
    destruct (find within_tolerance (endpoint_pairs c1 c2)) as [pq|] eqn:F;
      [discriminate H|].
    assert (Hin : In (GetEndPoint c1 i, GetEndPoint c2 j) (endpoint_pairs c1 c2)).
    { unfold endpoint_pairs.
      destruct i as [|[|i]], j as [|[|j]]; try lia; simpl; tauto. }
    pose proof (find_none _ _ F _ Hin) as W.
    unfold within_tolerance in W. simpl in W. apply Rltb_false_iff in W.
    exact (W Hclose).
  - intros H.
    destruct (find within_tolerance (endpoint_pairs c1 c2)) as [pq|] eqn:F;
      [|reflexivity].
    exfalso. apply find_some in F. destruct F as [Hin Hclose].
    apply Rltb_true_iff in Hclose. simpl in Hin.
    destruct Hin as [<- | [<- | [<- | [<- | []]]]]; simpl in Hclose.
    + apply (H 0%nat 0%nat); [lia | lia | exact Hclose].
    + apply (H 0%nat 1%nat); [lia | lia | exact Hclose].
    + apply (H 1%nat 0%nat); [lia | lia | exact Hclose].
    + apply (H 1%nat 1%nat); [lia | lia | exact Hclose].
Qed.

(** X5: whether a shared point is found depends neither on the order of the
    two curves nor on the sense in which either is run through. *)
Theorem shared_point_found_in_any_order (c1 c2 : Curve) :
  (find_shared_point_between_curves (Some c1) (Some c2) = None <->
   find_shared_point_between_curves (Some c2) (Some c1) = None) /\
  (find_shared_point_between_curves (Some (reversed c1)) (Some c2) = None <->
   find_shared_point_between_curves (Some c1) (Some c2) = None) /\
  (find_shared_point_between_curves (Some c1) (Some (reversed c2)) = None <->
   find_shared_point_between_curves (Some c1) (Some c2) = None).
Proof.
  rewrite !find_shared_point_None_iff.
  assert (Rev : forall c i, (i <= 1)%nat ->
                  GetEndPoint (reversed c) i = GetEndPoint c (1 - i)).
  { intros c [|[|i]] Hi; try lia; reflexivity. }
  split; [|split].
  - split; intros H i j Hi Hj; rewrite DistanceTo_comm; apply H; assumption.
  - split; intros H i j Hi Hj.
    + replace i with (1 - (1 - i))%nat by lia.
      rewrite <- Rev by lia. apply H; lia.
    + rewrite Rev by lia. apply H; lia.
  - split; intros H i j Hi Hj.
    + replace j with (1 - (1 - j))%nat by lia.
      rewrite <- Rev by lia. apply H; lia.
    + rewrite Rev by lia. apply H; lia.
Qed.

(** ** [get_MEPcurve_element_direction] and [are_directions_parallel] *)

Lemma DotProduct_mul (u v : XYZ) (a b : R) :
  DotProduct (XYZ_mul u a) (XYZ_mul v b) = a * b * DotProduct u v.
Proof. unfold DotProduct, XYZ_mul; simpl. ring. Qed.

Lemma GetLength_ne_0 (v : XYZ) : 0 < GetLength v -> GetLength v <> 0.
Proof. intros H E. rewrite E in H. lra. Qed.

Lemma Normalize_length (v : XYZ) : 0 < GetLength v -> GetLength (Normalize v) = 1.
Proof.
  intros H. unfold Normalize. unfold GetLength at 1.
  rewrite DotProduct_mul, <- GetLength_sqr.
  replace (/ GetLength v * / GetLength v * (GetLength v * GetLength v)) with 1
    by (field; apply GetLength_ne_0, H).
  apply sqrt_1.
Qed.

Lemma Normalize_neg (v : XYZ) : Normalize (XYZ_neg v) = XYZ_neg (Normalize v).
Proof.
  unfold Normalize. rewrite GetLength_neg. unfold XYZ_mul, XYZ_neg; simpl.
  f_equal; ring.
Qed.

Lemma XYZ_sub_swap (a b : XYZ) : XYZ_sub a b = XYZ_neg (XYZ_sub b a).
Proof. unfold XYZ_sub, XYZ_neg; simpl. f_equal; ring. Qed.

Lemma Normalize_scales_back (v : XYZ) :
  0 < GetLength v -> XYZ_mul (Normalize v) (GetLength v) = v.
Proof.
  intros H. unfold Normalize, XYZ_mul; simpl. destruct v as [a b c]; simpl.
  f_equal; field; apply GetLength_ne_0, H.
Qed.

(** X6: the direction of an element whose curve has two distinct endpoints
    is a vector of length 1 pointing from the start to the end: multiplied by
    the length of the curve it gives the end minus the start, and reversing
    the curve turns it into its opposite. *)
Theorem direction_is_unit_and_oriented (d : MEPCurve) (c : Curve) :
  Location d = Some c ->
  0 < DistanceTo (GetEndPoint c 1) (GetEndPoint c 0) ->
  exists dir,
    get_MEPcurve_element_direction d = Some dir /\
    GetLength dir = 1 /\
    XYZ_mul dir (DistanceTo (GetEndPoint c 1) (GetEndPoint c 0))
    = XYZ_sub (GetEndPoint c 1) (GetEndPoint c 0) /\
    get_MEPcurve_element_direction (with_curve d (reversed c)) = Some (XYZ_neg dir).
Proof.
  intros L H. unfold DistanceTo in *.
  exists (Normalize (XYZ_sub (GetEndPoint c 1) (GetEndPoint c 0))).
  split; [apply direction_Some, L|].
  split; [apply Normalize_length, H|].
  split; [apply Normalize_scales_back, H|].
  unfold get_MEPcurve_element_direction, with_curve, reversed.
  cbn [Location GetEndPoint EndPoint0 EndPoint1].
  rewrite <- Normalize_neg, <- XYZ_sub_swap. reflexivity.
Qed.

(** The west duct runs from (-1,0,0) to the origin: its direction is a unit
    vector, and the duct drawn the other way has the opposite direction. *)
Lemma direction_witness :
  exists dir,
    get_MEPcurve_element_direction Fixture.duct_west = Some dir /\
    GetLength dir = 1 /\
    XYZ_mul dir (DistanceTo Fixture.origin Fixture.west)
    = XYZ_sub Fixture.origin Fixture.west /\
    get_MEPcurve_element_direction
      (with_curve Fixture.duct_west (mkCurve Fixture.origin Fixture.west))
    = Some (XYZ_neg dir).
Proof.
  apply (direction_is_unit_and_oriented Fixture.duct_west
           (mkCurve Fixture.west Fixture.origin) eq_refl).
  unfold DistanceTo. apply GetLength_pos. unfold DotProduct; simpl; lra.
Defined.

Lemma AngleTo_comm (p q : XYZ) : AngleTo p q = AngleTo q p.
Proof.
  unfold AngleTo. f_equal. unfold DotProduct. f_equal; ring.
Qed.

Lemma sin_AngleTo_neg_r (p q : XYZ) : sin (AngleTo p (XYZ_neg q)) = sin (AngleTo p q).
Proof.
  unfold AngleTo. rewrite GetLength_neg.
  replace (DotProduct p (XYZ_neg q)) with (- DotProduct p q)
    by (unfold DotProduct, XYZ_neg; simpl; ring).
  unfold Rdiv. rewrite <- Ropp_mult_distr_l, acos_opp.
  apply sin_PI_x.
Qed.


Lemma AngleTo_Normalize (u v : XYZ) :
  0 < GetLength u -> 0 < GetLength v ->
  AngleTo (Normalize u) (Normalize v) = AngleTo u v.
Proof.
  intros Hu Hv. unfold AngleTo.
  rewrite (Normalize_length u Hu), (Normalize_length v Hv).
  unfold Normalize. rewrite DotProduct_mul. f_equal.
  field. split; apply GetLength_ne_0; assumption.
Qed.

(** X8: on two elements with curves of non-zero length, the parallelism test
    of their directions is the test of the angle between the two curves
    themselves, end minus start: the lengths of the elements play no part,
    and neither does the sense in which an element was drawn. *)
Theorem element_parallelism_ignores_length_and_sense
    (d1 d2 : MEPCurve) (c1 c2 : Curve) (tolerance : R) :
  Location d1 = Some c1 -> Location d2 = Some c2 ->
  0 < DistanceTo (GetEndPoint c1 1) (GetEndPoint c1 0) ->
  0 < DistanceTo (GetEndPoint c2 1) (GetEndPoint c2 0) ->
  let span c := XYZ_sub (GetEndPoint c 1) (GetEndPoint c 0) in
  are_directions_parallel (get_MEPcurve_element_direction d1)
    (get_MEPcurve_element_direction d2) tolerance
  = Ok (Rltb (sin (AngleTo (span c1) (span c2))) tolerance) /\
  are_directions_parallel
    (get_MEPcurve_element_direction (with_curve d1 (reversed c1)))
    (get_MEPcurve_element_direction d2) tolerance
  = are_directions_parallel (get_MEPcurve_element_direction d1)
      (get_MEPcurve_element_direction d2) tolerance /\
  are_directions_parallel (get_MEPcurve_element_direction d1)
    (get_MEPcurve_element_direction (with_curve d2 (reversed c2))) tolerance
  = are_directions_parallel (get_MEPcurve_element_direction d1)
      (get_MEPcurve_element_direction d2) tolerance.
Proof.
  intros L1 L2 H1 H2 span. unfold DistanceTo in H1, H2.
  assert (R : forall d c, Location d = Some c ->
                get_MEPcurve_element_direction (with_curve d (reversed c))
                = Some (XYZ_neg (Normalize (span c)))).
  { intros d c _. unfold get_MEPcurve_element_direction, with_curve, reversed, span.
    cbn [Location GetEndPoint EndPoint0 EndPoint1].
    rewrite <- Normalize_neg, <- XYZ_sub_swap. reflexivity. }
  rewrite (R d1 c1 L1), (R d2 c2 L2).
  rewrite (direction_Some d1 c1 L1), (direction_Some d2 c2 L2).
  unfold span. unfold are_directions_parallel. split; [|split].
  - rewrite (AngleTo_Normalize _ _ H1 H2). reflexivity.
  - rewrite (AngleTo_comm (XYZ_neg _)), sin_AngleTo_neg_r, AngleTo_comm. reflexivity.
  - rewrite sin_AngleTo_neg_r. reflexivity.
Qed.

(** The west duct against the east duct, and against the east duct drawn
    from (1,0,0) back to the origin: parallel both times. *)
Lemma element_parallelism_witness :
  are_directions_parallel (get_MEPcurve_element_direction Fixture.duct_west)
    (get_MEPcurve_element_direction Fixture.duct_east) default_tolerance
  = Ok true /\
  are_directions_parallel (get_MEPcurve_element_direction Fixture.duct_west)
    (get_MEPcurve_element_direction
       (with_curve Fixture.duct_east (mkCurve Fixture.east Fixture.origin)))
    default_tolerance
  = Ok true.
Proof.
  destruct (element_parallelism_ignores_length_and_sense
              Fixture.duct_west Fixture.duct_east
              (mkCurve Fixture.west Fixture.origin)
              (mkCurve Fixture.origin Fixture.east) default_tolerance
              eq_refl eq_refl) as (E & _ & R).
  - unfold DistanceTo. apply GetLength_pos. unfold DotProduct; simpl; lra.
  - unfold DistanceTo. apply GetLength_pos. unfold DotProduct; simpl; lra.
  - cbv zeta in E. cbn [GetEndPoint EndPoint0 EndPoint1] in E.
    fold Fixture.dir_west Fixture.dir_east in E.
    change (Rltb (sin (AngleTo Fixture.dir_west Fixture.dir_east)) default_tolerance)
      with (parallel Fixture.dir_west Fixture.dir_east) in E.
    rewrite FixtureFacts.west_east in E.
    split; [exact E|]. unfold reversed in R. cbn [EndPoint0 EndPoint1] in R.
    rewrite R. exact E.
Defined.

(** ** [create_fitting], whatever the input *)

Ltac plan_none p :=
  exists p; split; [|intros ? ?; discriminate];
  intros doc w;
  first [ rewrite create_fitting_eq2 | rewrite create_fitting_eq3
        | rewrite create_fitting_eq4 ];
  repeat match goal with
         | H : find_shared_point_between_curves _ _ = _ |- _ => rewrite H
         | H : MEPcurve_element_nearest_connector_to_point _ _ = _ |- _ => rewrite H
         | H : are_directions_parallel _ _ _ = _ |- _ => rewrite H
         end;
  reflexivity.

Ltac plan_nearest' d p :=
  let c := fresh "conn" in
  let N := fresh "N" in
  destruct (nearest_connector_cases d p) as [[_ [c N]] | [_ N]];
  [ | plan_none (Fail IndexError) ].

Ltac plan_parallel' d1 d2 :=
  let P := fresh "P" in
  let e := fresh "e" in
  destruct (are_directions_parallel (get_MEPcurve_element_direction d1)
              (get_MEPcurve_element_direction d2) default_tolerance)
    as [[|]|e] eqn:P;
  [ | | plan_none (Fail e) ].

Ltac plan_call call p conns :=
  exists (Call call); split;
  [ intros doc w;
    first [ rewrite create_fitting_eq2 | rewrite create_fitting_eq3
          | rewrite create_fitting_eq4 ];
    repeat match goal with
           | H : find_shared_point_between_curves _ _ = _ |- _ => rewrite H
           | H : MEPcurve_element_nearest_connector_to_point _ _ = _ |- _ => rewrite H
           | H : are_directions_parallel _ _ _ = _ |- _ => rewrite H
           end;
    reflexivity
  | intros call' E; injection E as <-; exists p, conns;
    split; [assumption|]; split; [repeat constructor; assumption|] ].

(** A run of [create_fitting] is a plan fixed by the elements alone, and a
    plan that invokes a constructor hands it the nearest connector of every
    element, each once. *)
Lemma create_fitting_plan_connectors (ducts : list MEPCurve) :
  exists pl,
    (forall doc w, create_fitting doc ducts w = execute doc pl w) /\
    (forall call,
        pl = Call call ->
        exists p conns,
          first_two_shared_point ducts = Some p /\
          Forall2 (fun d c => MEPcurve_element_nearest_connector_to_point d p = ret c)
                  ducts conns /\
          Permutation (fitting_connectors call) conns).
Proof.
  destruct ducts as [|d1 [|d2 rest]];
    [exists Skip; split; [|intros ? ?; discriminate]; intros doc w;
     rewrite create_fitting_out_of_range by (left; simpl; lia); reflexivity ..|].
  destruct (find_shared_point_between_curves (Location d1) (Location d2))
    as [p|] eqn:Hp;
    [|exists Skip; split; [|intros ? ?; discriminate]; intros doc w;
      rewrite (create_fitting_no_shared_point doc d1 d2 rest Hp); reflexivity].
  destruct rest as [|d3 [|d4 [|d5 rest]]].
  - plan_nearest' d1 p. plan_nearest' d2 p.
    plan_parallel' d1 d2.
    + plan_call (NewUnionFitting conn conn0) p [conn; conn0]. apply Permutation_refl.
    + plan_call (NewElbowFitting conn conn0) p [conn; conn0]. apply Permutation_refl.
  - plan_nearest' d1 p. plan_nearest' d2 p. plan_nearest' d3 p.
    plan_parallel' d1 d2.
    { plan_call (NewTeeFitting conn conn0 conn1) p [conn; conn0; conn1].
      apply Permutation_refl. }
    plan_parallel' d1 d3.
    + plan_call (NewTeeFitting conn1 conn conn0) p [conn; conn0; conn1].
      apply (Permutation_cons_append [conn; conn0] conn1).
    + plan_call (NewTeeFitting conn1 conn0 conn) p [conn; conn0; conn1].
      apply Permutation_sym. apply (Permutation_rev [conn; conn0; conn1]).
  - plan_nearest' d1 p. plan_nearest' d2 p. plan_nearest' d3 p. plan_nearest' d4 p.
    plan_parallel' d1 d2.
    { plan_call (NewCrossFitting conn conn0 conn1 conn2) p [conn; conn0; conn1; conn2].
      apply Permutation_refl. }
    plan_parallel' d1 d3.
    { plan_call (NewCrossFitting conn conn1 conn0 conn2) p [conn; conn0; conn1; conn2].
      simpl. apply perm_skip, perm_swap. }
    plan_parallel' d1 d4.
    { plan_call (NewCrossFitting conn conn2 conn0 conn1) p [conn; conn0; conn1; conn2].
      simpl. apply perm_skip. apply (Permutation_cons_append [conn0; conn1] conn2). }
    plan_none Skip.
  - exists Skip. split; [|intros ? ?; discriminate]. intros doc w.
    rewrite create_fitting_out_of_range by (right; simpl; lia). reflexivity.
Qed.

(** X9: on any list of elements whatever, [create_fitting] invokes at most
    one constructor and prints nothing, and which constructor it invokes, on
    which connectors, is fixed by the elements: the document and the state of
    the run have no say in it. *)
Theorem create_fitting_invokes_at_most_once (ducts : list MEPCurve) :
  exists calls,
    (List.length calls <= 1)%nat /\
    forall doc w,
      calls_after (create_fitting doc ducts) w = invoked w ++ calls /\
      stdout (snd (create_fitting doc ducts w)) = stdout w.
Proof.
  destruct (create_fitting_plan_connectors ducts) as (pl & E & _).
  exists (planned_calls pl). split; [destruct pl; simpl; lia|].
  intros doc w. unfold calls_after. rewrite E.
  split; [apply execute_invoked | apply execute_stdout].
Qed.

Lemma tee_west_east_north (doc : Document) (w : World) :
  create_fitting doc [Fixture.duct_west; Fixture.duct_east; Fixture.duct_north] w
  = invoke doc
      (NewTeeFitting Fixture.conn_west Fixture.conn_east Fixture.conn_north) w.
Proof.
  rewrite (create_fitting_run3 doc Fixture.duct_west Fixture.duct_east
             Fixture.duct_north Fixture.meeting
             Fixture.conn_west Fixture.conn_east Fixture.conn_north
             Fixture.dir_west Fixture.dir_east w
             FixtureFacts.shared_west_east FixtureFacts.nearest_west
             (FixtureFacts.nearest_from_origin 2 Fixture.east)
             (FixtureFacts.nearest_from_origin 3 Fixture.north)
             FixtureFacts.direction_west FixtureFacts.direction_east).
  rewrite FixtureFacts.west_east. reflexivity.
Qed.

(** X10: whenever [create_fitting] invokes a constructor, the elements have
    a shared point for their first two, and the constructor receives the
    nearest connector to that point of every element, each exactly once; so
    the fitting has as many connectors as there are elements. *)
Theorem fitting_takes_one_connector_per_element
    (doc : Document) (ducts : list MEPCurve) (w : World) (call : FittingCall) :
  calls_after (create_fitting doc ducts) w = invoked w ++ [call] ->
  exists p conns,
    first_two_shared_point ducts = Some p /\
    Forall2 (fun d c => MEPcurve_element_nearest_connector_to_point d p = ret c)
            ducts conns /\
    Permutation (fitting_connectors call) conns /\
    List.length (fitting_connectors call) = List.length ducts.
Proof.
  intros H.
  destruct (create_fitting_plan_connectors ducts) as (pl & E & C).
  unfold calls_after in H. rewrite E, execute_invoked in H.
  apply app_inv_head in H.
  destruct pl as [| e | call']; try discriminate H.
  simpl in H. injection H as ->.
  destruct (C call eq_refl) as (p & conns & Hp & F & P).
  exists p, conns. split; [exact Hp|]. split; [exact F|]. split; [exact P|].
  rewrite (Permutation_length P). symmetry. apply (Forall2_length F).
Qed.

(** The tee of the three ducts meeting at the origin takes the connector at
    the origin of each of them. *)
Lemma fitting_connectors_witness :
  exists p conns,
    first_two_shared_point
      [Fixture.duct_west; Fixture.duct_east; Fixture.duct_north] = Some p /\
    Forall2 (fun d c => MEPcurve_element_nearest_connector_to_point d p = ret c)
            [Fixture.duct_west; Fixture.duct_east; Fixture.duct_north] conns /\
    Permutation
      (fitting_connectors
         (NewTeeFitting Fixture.conn_west Fixture.conn_east Fixture.conn_north))
      conns /\
    List.length
      (fitting_connectors
         (NewTeeFitting Fixture.conn_west Fixture.conn_east Fixture.conn_north))
    = List.length [Fixture.duct_west; Fixture.duct_east; Fixture.duct_north].
Proof.
  apply (fitting_takes_one_connector_per_element Fixture.yes
           [Fixture.duct_west; Fixture.duct_east; Fixture.duct_north] Fixture.w0).
  unfold calls_after. rewrite tee_west_east_north. reflexivity.
Defined.

(** ** Clustering and the shared point together *)

Lemma same_thousandth_close (round : R -> nat -> R) (x y : R) :
  rounds_to_nearest_thousandth round ->
  round x 3%nat = round y 3%nat ->
  (x - y) * (x - y) <= 0.000001.
Proof.
  intros Hr E. pose proof (Hr x) as Hx. pose proof (Hr y) as Hy.
  rewrite E in Hx. nra.
Qed.

Lemma same_key_close (round : R -> nat -> R) (k1 k2 : Connector) :
  rounds_to_nearest_thousandth round ->
  location_key round k1 = location_key round k2 ->
  DistanceTo (Origin k1) (Origin k2) < 0.01.
Proof.
  intros Hr E. unfold location_key in E. injection E as EX EY EZ.
  pose proof (same_thousandth_close round _ _ Hr EX).
  pose proof (same_thousandth_close round _ _ Hr EY).
  pose proof (same_thousandth_close round _ _ Hr EZ).
  apply DistanceTo_lt_iff; lra.
Qed.

Lemma close_ends_share_a_point (c1 c2 : Curve) (k1 k2 : Connector) :
  at_curve_end k1 c1 -> at_curve_end k2 c2 ->
  DistanceTo (Origin k1) (Origin k2) < 0.01 ->
  exists m, find_shared_point_between_curves (Some c1) (Some c2) = Some m.
Proof.
  intros A1 A2 H.
  destruct (find_shared_point_between_curves (Some c1) (Some c2)) as [m|] eqn:F;
    [exists m; reflexivity|].
  exfalso. rewrite find_shared_point_None_iff in F.
  destruct A1 as [E1 | E1], A2 as [E2 | E2]; rewrite E1, E2 in H.
  - apply (F 0%nat 0%nat); [lia | lia | exact H].
  - apply (F 0%nat 1%nat); [lia | lia | exact H].
  - apply (F 1%nat 0%nat); [lia | lia | exact H].
  - apply (F 1%nat 1%nat); [lia | lia | exact H].
Qed.

Lemma group_member (round : R -> nat -> R) (cs g : list Connector) (c : Connector) :
  In g (values (group_MEPcuve_element_connectors_by_location round cs)) ->
  In c g ->
  In c cs /\
  exists k, forall c', In c' g -> location_key round c' = k.
Proof.
  intros Hg Hc. unfold values in Hg. rewrite group_closed_form, map_map in Hg.
  apply in_map_iff in Hg. destruct Hg as (k & E & _). simpl in E. subst g.
  split.
  - apply filter_In in Hc. tauto.
  - exists k. intros c' Hc'. apply filter_In in Hc'. apply Key_eqb_eq. tauto.
Qed.

(** X11: the clustering guarantees the shared point. When [round(x, 3)] is
    within half a thousandth of [x] and every connector lies at an end of its
    owner's curve, any two elements that the script selects for one cluster
    have a shared point: the intersection test of [create_fitting] cannot
    fail on a cluster built by the script. *)
Theorem cluster_elements_share_a_point
    (round : R -> nat -> R) (mep_elements : list MEPCurve)
    (mep_elements_connectors group : list Connector) (d1 d2 : MEPCurve) :
  rounds_to_nearest_thousandth round ->
  connectors_at_curve_ends mep_elements mep_elements_connectors ->
  In group (values (group_MEPcuve_element_connectors_by_location round
                      mep_elements_connectors)) ->
  In d1 (filter_MEPcurve_elements_using_connectors group mep_elements) ->
  In d2 (filter_MEPcurve_elements_using_connectors group mep_elements) ->
  exists m,
    find_shared_point_between_curves (Location d1) (Location d2) = Some m.
Proof.
  intros Hr Hends Hg H1 H2.
  unfold filter_MEPcurve_elements_using_connectors in H1, H2.
  apply filter_In in H1, H2.
  destruct H1 as [I1 O1], H2 as [I2 O2].
  apply owner_test_iff, in_map_iff in O1. destruct O1 as (k1 & E1 & G1).
  apply owner_test_iff, in_map_iff in O2. destruct O2 as (k2 & E2 & G2).
  destruct (group_member round _ _ k1 Hg G1) as [C1 (k & Hk)].
  destruct (group_member round _ _ k2 Hg G2) as [C2 _].
  destruct (Hends k1 d1 C1 I1 E1) as (c1 & L1 & A1).
  destruct (Hends k2 d2 C2 I2 E2) as (c2 & L2 & A2).
  rewrite L1, L2. apply (close_ends_share_a_point c1 c2 k1 k2 A1 A2).
  apply (same_key_close round k1 k2 Hr). rewrite (Hk k1 G1), (Hk k2 G2). reflexivity.
Qed.

Lemma round_half_away_accurate : rounds_to_nearest_thousandth round_half_away.
Proof.
  intros x. unfold round_half_away.
  destruct (Rle_dec 0 x) as [P | N].
  - destruct (base_Int_part (x * 10 ^ 3 + / 2)) as [B1 B2].
    simpl in *. lra.
  - destruct (base_Int_part (- x * 10 ^ 3 + / 2)) as [B1 B2].
    simpl in *. lra.
Qed.

Lemma round_half_away_m1 : round_half_away (-1) 3 = -1.
Proof.
  unfold round_half_away. destruct (Rle_dec 0 (-1)) as [P | _]; [exfalso; lra|].
  replace (Int_part (- -1 * 10 ^ 3 + / 2)) with 1000%Z.
  - simpl. lra.
  - apply Int_part_spec. simpl. lra.
Qed.

(** The four connectors of the west and the east duct, grouped. *)
Lemma group_west_east :
  values (group_MEPcuve_element_connectors_by_location round_half_away
            [mkConnector Fixture.west 1; Fixture.conn_west;
             Fixture.conn_east; mkConnector Fixture.east 2])
  = [[mkConnector Fixture.west 1]; [Fixture.conn_west; Fixture.conn_east];
     [mkConnector Fixture.east 2]].
Proof.
  rewrite group_closed_form.
  assert (Kw : (-1, 0, 0) <> ((0, 0, 0) : Key)) by (intros H; injection H; lra).
  assert (Kw' : (0, 0, 0) <> ((-1, 0, 0) : Key)) by (intros H; injection H; lra).
  assert (Ke : (1, 0, 0) <> ((0, 0, 0) : Key)) by (intros H; injection H; lra).
  assert (Ke' : (0, 0, 0) <> ((1, 0, 0) : Key)) by (intros H; injection H; lra).
  assert (Kwe : (-1, 0, 0) <> ((1, 0, 0) : Key)) by (intros H; injection H; lra).
  assert (Kew : (1, 0, 0) <> ((-1, 0, 0) : Key)) by (intros H; injection H; lra).
  unfold bucket, location_key, values. simpl.
  rewrite round_half_away_0, round_half_away_1, round_half_away_m1.
  repeat (rewrite ?Key_eqb_refl, ?(Key_eqb_neq _ _ Kw), ?(Key_eqb_neq _ _ Kw'),
            ?(Key_eqb_neq _ _ Ke), ?(Key_eqb_neq _ _ Ke'),
            ?(Key_eqb_neq _ _ Kwe), ?(Key_eqb_neq _ _ Kew); simpl).
  reflexivity.
Qed.

(** The west and the east duct with their four connectors: the cluster at
    the origin selects both ducts, and they have a shared point. *)
Lemma cluster_elements_share_a_point_witness :
  exists m,
    find_shared_point_between_curves (Location Fixture.duct_west)
      (Location Fixture.duct_east) = Some m.
Proof.
  apply (cluster_elements_share_a_point round_half_away
           [Fixture.duct_west; Fixture.duct_east]
           [mkConnector Fixture.west 1; Fixture.conn_west;
            Fixture.conn_east; mkConnector Fixture.east 2]
           [Fixture.conn_west; Fixture.conn_east]).
  - exact round_half_away_accurate.
  - intros c d Hc Hd HO. simpl in Hc, Hd.
    destruct Hd as [<- | [<- | []]];
      destruct Hc as [<- | [<- | [<- | [<- | []]]]];
      try discriminate HO;
      (eexists; split; [reflexivity|]);
      unfold at_curve_end; simpl; auto.
  - rewrite group_west_east. simpl. auto.
  - simpl. auto.
  - simpl. auto.
Defined.

(** ** Creating the elements: commands, form and constructor *)

Lemma offered_command_cases (command : string) :
  In command MEP_NETWORKS <->
  command = Commands.CREATE_DUCT_NETWORK \/ command = Commands.CREATE_PIPE_NETWORK \/
  command = Commands.CREATE_CABLE_TRAY_NETWORK \/
  command = Commands.CREATE_CONDUITS_NETWORK.
Proof. unfold MEP_NETWORKS. simpl. intuition congruence. Qed.

(** X12: [create_MEPcurve_element] returns an element exactly for the four
    commands the script offers, and raises [ValueError] for every other
    string; for a cable tray and for a conduit the result is the same
    whatever system type is handed in. *)
Theorem create_MEPcurve_element_succeeds_on_offered_commands
    (command : string) (type_id level_id : option ElementId) (start end_ : XYZ)
    (system_type_id : option ElementId) :
  ((exists call,
       create_MEPcurve_element command type_id level_id start end_ system_type_id
       = Returns call)
   <-> In command MEP_NETWORKS) /\
  (~ In command MEP_NETWORKS ->
   create_MEPcurve_element command type_id level_id start end_ system_type_id
   = ValueError "Invalid command for creating MEP curve element.") /\
  (command = Commands.CREATE_CABLE_TRAY_NETWORK \/
   command = Commands.CREATE_CONDUITS_NETWORK ->
   forall other_system,
     create_MEPcurve_element command type_id level_id start end_ other_system
     = create_MEPcurve_element command type_id level_id start end_ system_type_id).
Proof.
  assert (Out : ~ In command MEP_NETWORKS ->
                create_MEPcurve_element command type_id level_id start end_
                  system_type_id
                = ValueError "Invalid command for creating MEP curve element.").
  { intros N. rewrite offered_command_cases in N. unfold create_MEPcurve_element.
    repeat match goal with
           | |- context [String.eqb command ?c] =>
               destruct (String.eqb_spec command c) as [E | _]; [exfalso; tauto|]
           end.
    reflexivity. }
  split; [|split; [exact Out|]].
  - split.
    + intros [call E].
      destruct (in_dec string_dec command MEP_NETWORKS) as [I | N]; [exact I|].
      rewrite (Out N) in E. discriminate E.
    + intros I. apply offered_command_cases in I.
      destruct I as [-> | [-> | [-> | ->]]]; eexists; reflexivity.
  - intros [-> | ->] other; reflexivity.
Qed.

(** A conduit between two points, with no system type and with system type
    42: the same host call. A misspelt command raises. *)
Lemma create_MEPcurve_element_witness :
  create_MEPcurve_element Commands.CREATE_CONDUITS_NETWORK (Some 7%nat) (Some 1%nat)
    Fixture.origin Fixture.east (Some 42%nat)
  = create_MEPcurve_element Commands.CREATE_CONDUITS_NETWORK (Some 7%nat) (Some 1%nat)
      Fixture.origin Fixture.east None /\
  create_MEPcurve_element "Create Duct network" (Some 7%nat) (Some 1%nat)
    Fixture.origin Fixture.east None
  = ValueError "Invalid command for creating MEP curve element.".
Proof.
  split.
  - apply (proj2 (proj2 (create_MEPcurve_element_succeeds_on_offered_commands
                           Commands.CREATE_CONDUITS_NETWORK (Some 7%nat) (Some 1%nat)
                           Fixture.origin Fixture.east None))).
    right. reflexivity.
  - apply (proj1 (proj2 (create_MEPcurve_element_succeeds_on_offered_commands
                           "Create Duct network" (Some 7%nat) (Some 1%nat)
                           Fixture.origin Fixture.east None))).
    rewrite offered_command_cases. intros [H | [H | [H | H]]]; discriminate H.
Defined.

(** X13: for every command the script offers, the three places that deal
    with the system type agree: the script looks up system types, the form
    has a combo box for them, and the constructor uses the one handed in, all
    exactly for ducts and pipes; and for each of these commands the form is
    built and the element types are looked up. *)
Theorem system_type_asked_exactly_when_used (command : string) :
  In command MEP_NETWORKS ->
  (creation_uses_system_type command <-> form_asks_system_type command) /\
  (creation_uses_system_type command <-> snd (network_categories command) <> None) /\
  (creation_uses_system_type command <->
   command = Commands.CREATE_DUCT_NETWORK \/ command = Commands.CREATE_PIPE_NETWORK) /\
  (forall (Options : Type) (types systems levels : Options),
      flexform_component command types systems levels <> None) /\
  fst (network_categories command) <> None.
Proof.
  intros I. apply offered_command_cases in I.
  assert (Yes : forall c, c = Commands.CREATE_DUCT_NETWORK \/
                          c = Commands.CREATE_PIPE_NETWORK ->
                          creation_uses_system_type c /\ form_asks_system_type c).
  { intros c [-> | ->]; (split;
      [ exists None, None, Fixture.origin, Fixture.origin, None, (Some 0%nat);
        discriminate
      | intros O t sy l; eexists; split; [reflexivity|]; simpl; tauto ]). }
  assert (No : forall c, c = Commands.CREATE_CABLE_TRAY_NETWORK \/
                         c = Commands.CREATE_CONDUITS_NETWORK ->
                         ~ creation_uses_system_type c /\ ~ form_asks_system_type c).
  { intros c [-> | ->]; (split;
      [ intros (t & l & a & b & s1 & s2 & N); apply N; reflexivity
      | intros F; destruct (F bool true false true) as (comp & E & Hin);
        injection E as <-; simpl in Hin;
        destruct Hin as [H | [H | [H | []]]]; discriminate H ]). }
  destruct I as [-> | [-> | [-> | ->]]].
  - destruct (Yes _ (or_introl eq_refl)) as [U F].
    split; [tauto|].
    split; [split; [intros _; discriminate | intros _; exact U]|].
    split; [split; [intros _; left; reflexivity | intros _; exact U]|].
    split; [intros; discriminate | discriminate].
  - destruct (Yes _ (or_intror eq_refl)) as [U F].
    split; [tauto|].
    split; [split; [intros _; discriminate | intros _; exact U]|].
    split; [split; [intros _; right; reflexivity | intros _; exact U]|].
    split; [intros; discriminate | discriminate].
  - destruct (No _ (or_introl eq_refl)) as [U F].
    split; [tauto|].
    split; [split; [intros H; contradiction
                   | intros H; exfalso; apply H; reflexivity]|].
    split; [split; [intros H; contradiction | intros [H | H]; discriminate H]|].
    split; [intros; discriminate | discriminate].
  - destruct (No _ (or_intror eq_refl)) as [U F].
    split; [tauto|].
    split; [split; [intros H; contradiction
                   | intros H; exfalso; apply H; reflexivity]|].
    split; [split; [intros H; contradiction | intros [H | H]; discriminate H]|].
    split; [intros; discriminate | discriminate].
Qed.

(** For the cable tray command: no system types are looked up, the form has
    no combo box for them, and the constructor does not use one. *)
Lemma system_type_witness :
  (creation_uses_system_type Commands.CREATE_CABLE_TRAY_NETWORK
   <-> form_asks_system_type Commands.CREATE_CABLE_TRAY_NETWORK) /\
  ~ form_asks_system_type Commands.CREATE_CABLE_TRAY_NETWORK.
Proof.
  destruct (system_type_asked_exactly_when_used Commands.CREATE_CABLE_TRAY_NETWORK)
    as (A & _ & B & _).
  - unfold MEP_NETWORKS. simpl. tauto.
  - split; [exact A|]. intros F. apply A in F. apply B in F.
    destruct F as [F | F]; discriminate F.
Defined.

(** ** The dictionaries of element types and of levels *)

Lemma find_app_last {A} (f : A -> bool) (l : list A) (x : A) :
  find f (l ++ [x])
  = match find f l with
    | Some y => Some y
    | None => if f x then Some x else None
    end.
Proof.
  induction l as [|a t IH]; simpl; [reflexivity|].
  destruct (f a); [reflexivity | exact IH].
Qed.

Section DictFromPairs.

Context {V : Type}.

Lemma dict_get_setitem (d : dict V) (k k' : string) (v : V) :
  dict_get (dict_setitem d k' v) k
  = if String.eqb k k' then Some v else dict_get d k.
Proof.
  induction d as [|[k0 v0] rest IH]; simpl; [reflexivity|].
  destruct (String.eqb_spec k' k0) as [-> | N]; simpl.
  - destruct (String.eqb k k0); reflexivity.
  - rewrite IH. destruct (String.eqb_spec k k0) as [-> | N0]; [|reflexivity].
    destruct (String.eqb_spec k0 k') as [E | _]; [congruence | reflexivity].
Qed.

Lemma dict_setitem_In (d : dict V) (k : string) (v : V) (kv : string * V) :
  In kv (dict_setitem d k v) -> kv = (k, v) \/ In kv d.
Proof.
  induction d as [|[k0 v0] rest IH]; simpl.
  - intros [<- | []]. left. reflexivity.
  - destruct (String.eqb_spec k k0) as [-> | N]; simpl.
    + intros [<- | H]; [left; reflexivity | right; right; exact H].
    + intros [<- | H]; [right; left; reflexivity|].
      destruct (IH H) as [E | I]; [left; exact E | right; right; exact I].
Qed.

Lemma dict_setitem_new (d : dict V) (k : string) (v : V) :
  ~ In k (map fst d) -> dict_setitem d k v = d ++ [(k, v)].
Proof.
  induction d as [|[k0 v0] rest IH]; simpl; intros N; [reflexivity|].
  destruct (String.eqb_spec k k0) as [E | _]; [exfalso; apply N; left; congruence|].
  rewrite IH by tauto. reflexivity.
Qed.

Lemma fold_setitem_get (pairs : list (string * V)) (acc : dict V) (k : string) :
  dict_get (fold_left (fun d kv => dict_setitem d (fst kv) (snd kv)) pairs acc) k
  = match find (fun kv => String.eqb k (fst kv)) (rev pairs) with
    | Some kv => Some (snd kv)
    | None => dict_get acc k
    end.
Proof.
  revert acc. induction pairs as [|[k0 v0] rest IH]; intros acc; [reflexivity|].
  cbn [fold_left rev]. rewrite IH, find_app_last, dict_get_setitem. cbn [fst snd].
  destruct (find (fun kv => String.eqb k (fst kv)) (rev rest)); [reflexivity|].
  cbn [fst snd]. destruct (String.eqb k k0); reflexivity.
Qed.

Lemma fold_setitem_In (pairs : list (string * V)) (acc : dict V) (kv : string * V) :
  In kv (fold_left (fun d kv => dict_setitem d (fst kv) (snd kv)) pairs acc) ->
  In kv pairs \/ In kv acc.
Proof.
  revert acc. induction pairs as [|[k0 v0] rest IH]; intros acc H; [right; exact H|].
  cbn [fold_left] in H. destruct (IH _ H) as [I | I]; [left; right; exact I|].
  apply dict_setitem_In in I. cbn [fst snd] in I.
  destruct I as [-> | I]; [left; left; reflexivity | right; exact I].
Qed.

Lemma fold_setitem_distinct (pairs : list (string * V)) (acc : dict V) :
  NoDup (map fst acc ++ map fst pairs) ->
  fold_left (fun d kv => dict_setitem d (fst kv) (snd kv)) pairs acc = acc ++ pairs.
Proof.
  revert acc. induction pairs as [|[k0 v0] rest IH]; intros acc ND;
    [rewrite app_nil_r; reflexivity|].
  cbn [fold_left fst snd]. cbn [map fst] in ND.
  rewrite dict_setitem_new.
  - rewrite IH; [rewrite <- app_assoc; reflexivity|].
    rewrite map_app. cbn [map fst]. rewrite <- app_assoc. exact ND.
  - intros I. apply NoDup_remove_2 in ND. apply ND. apply in_or_app. left. exact I.
Qed.

Variable name : V -> string.

Lemma combine_names (items : list V) :
  combine (map name items) items = map (fun v => (name v, v)) items.
Proof. induction items as [|v rest IH]; simpl; [|rewrite IH]; reflexivity. Qed.

Lemma find_named_pairs (items : list V) (k : string) :
  find (fun kv => String.eqb k (fst kv)) (map (fun v => (name v, v)) items)
  = option_map (fun v => (name v, v)) (find (fun v => String.eqb k (name v)) items).
Proof.
  induction items as [|v rest IH]; [reflexivity|].
  simpl. destruct (String.eqb k (name v)); [reflexivity | exact IH].
Qed.

(** The dictionary built from items and their names. *)
Lemma dict_of_named_items (items : list V) :
  let d := dict_from_pairs (combine (map name items) items) in
  (forall k, dict_get d k = last_named name items k) /\
  (forall k v, In (k, v) d -> k = name v /\ In v items) /\
  (NoDup (map name items) -> map snd d = items).
Proof.
  cbv zeta. unfold dict_from_pairs. rewrite combine_names. split; [|split].
  - intros k. rewrite fold_setitem_get, <- map_rev, find_named_pairs.
    unfold last_named. destruct (find _ (rev items)); reflexivity.
  - intros k v H. apply fold_setitem_In in H. destruct H as [H | []].
    apply in_map_iff in H. destruct H as (x & E & Hx). injection E as <- <-.
    split; [reflexivity | exact Hx].
  - intros ND. rewrite fold_setitem_distinct.
    + simpl. rewrite map_map. simpl. apply map_id.
    + simpl. rewrite map_map. simpl. exact ND.
Qed.

End DictFromPairs.

(** X14: in the dictionary of element types, and in the dictionary of
    levels, a name leads to the last item of the document bearing it: of two
    element types of one name only the later one can be picked. Every entry
    is filed under the name of its value, and when the names are pairwise
    distinct the dictionary holds all the items in the order found. *)
Theorem name_dictionaries_keep_the_last
    (collector : BuiltInCategory -> list ElementType)
    (builtin_category : BuiltInCategory) (levels : list Level) :
  let types := get_MEPcurve_elementtypes_by_category collector builtin_category in
  let levelsdata := get_levels_data levels in
  (forall name,
      dict_get types name
      = last_named SYMBOL_NAME_PARAM (collector builtin_category) name) /\
  (forall name t,
      In (name, t) types ->
      name = SYMBOL_NAME_PARAM t /\ In t (collector builtin_category)) /\
  (NoDup (map SYMBOL_NAME_PARAM (collector builtin_category)) ->
   map snd types = collector builtin_category) /\
  (forall name, dict_get levelsdata name = last_named Name levels name) /\
  (forall name l, In (name, l) levelsdata -> name = Name l /\ In l levels) /\
  (NoDup (map Name levels) -> map snd levelsdata = levels).
Proof.
  cbv zeta. unfold get_MEPcurve_elementtypes_by_category, get_levels_data.
  destruct (dict_of_named_items SYMBOL_NAME_PARAM (collector builtin_category))
    as (A & B & C).
  destruct (dict_of_named_items Name levels) as (A' & B' & C').
  repeat split; try apply A; try apply A'; try (eapply B; eassumption);
    try (eapply B'; eassumption); try (apply C; assumption); apply C'; assumption.
Qed.

(** Two duct types named "Default" and one named "Round": the dictionary has
    two entries, and "Default" leads to the later of the two. *)
Lemma name_dictionaries_witness :
  let found := fun _ : BuiltInCategory =>
                 [mkElementType 10 "Default"; mkElementType 11 "Round";
                  mkElementType 12 "Default"] in
  get_MEPcurve_elementtypes_by_category found OST_DuctCurves
  = [("Default"%string, mkElementType 12 "Default");
     ("Round"%string, mkElementType 11 "Round")] /\
  dict_get (get_MEPcurve_elementtypes_by_category found OST_DuctCurves) "Default"
  = Some (mkElementType 12 "Default").
Proof.
  cbv zeta. split; [reflexivity|].
  rewrite (proj1 (name_dictionaries_keep_the_last
                    (fun _ => [mkElementType 10 "Default"; mkElementType 11 "Round";
                               mkElementType 12 "Default"])
                    OST_DuctCurves [])).
  reflexivity.
Defined.

(** ** The script up to the creation of the elements *)






(** ** The loop over the clusters, counted *)

Lemma attempt_effect (DOC : Document) (mep_elements : list MEPCurve)
    (group : list Connector) (w : World) :
  exists calls,
    (List.length calls <= 1)%nat /\
    invoked (attempt DOC mep_elements group w) = invoked w ++ calls /\
    stdout (attempt DOC mep_elements group w)
    = stdout w ++
      match outcome (create_fitting DOC
                       (filter_MEPcurve_elements_using_connectors group mep_elements))
                    w with
      | Ok _ => []
      | Raise e => printed_failure e
      end.
Proof.
  destruct (create_fitting_plan
              (filter_MEPcurve_elements_using_connectors group mep_elements))
    as [p Hp].
  exists (planned_calls p). split; [destruct p; simpl; lia|].
  unfold attempt, outcome. rewrite Hp.
  pose proof (execute_invoked DOC p w) as I.
  pose proof (execute_stdout DOC p w) as S.
  destruct (execute DOC p w) as [[[]|e] w1]; simpl in *.
  - split; [exact I | rewrite app_nil_r; exact S].
  - split; [exact I | rewrite S; reflexivity].
Qed.


(** X17: what the loop prints is exactly the failures of the clusters, in
    the order of the clusters, three items for each: the line "Error", the
    traceback and an empty line. A run without failure prints nothing. *)
Theorem loop_prints_exactly_the_failures
    (DOC : Document) (mep_elements : list MEPCurve)
    (groups : list (list Connector)) (w : World) :
  stdout (snd (fittings_loop DOC mep_elements groups w))
  = stdout w ++
    flat_map printed_failure (cluster_failures DOC mep_elements groups w).
Proof.
  rewrite fittings_loop_fold. cbn [snd].
  revert w. induction groups as [|g rest IH]; intros w.
  - simpl. rewrite app_nil_r. reflexivity.
  - cbn [fold_left cluster_failures]. rewrite IH.
    destruct (attempt_effect DOC mep_elements g w) as (c1 & _ & _ & S).
    rewrite S.
    destruct (outcome (create_fitting DOC
                (filter_MEPcurve_elements_using_connectors g mep_elements)) w)
      as [[]|e].
    + rewrite app_nil_r. reflexivity.
    + cbn [flat_map]. rewrite <- app_assoc. reflexivity.
Qed.

(** ** Clusters built by the script *)

Lemma cluster_member_end (round : R -> nat -> R) (mep_elements : list MEPCurve)
    (connectors group : list Connector) (d : MEPCurve) :
  connectors_at_curve_ends mep_elements connectors ->
  In group (values (group_MEPcuve_element_connectors_by_location round connectors)) ->
  In d (filter_MEPcurve_elements_using_connectors group mep_elements) ->
  exists k curve,
    In k group /\ In d mep_elements /\ Location d = Some curve /\ at_curve_end k curve.
Proof.
  intros Hends Hg H. unfold filter_MEPcurve_elements_using_connectors in H.
  apply filter_In in H. destruct H as [I O].
  apply owner_test_iff, in_map_iff in O. destruct O as (k & E & G).
  destruct (group_member round _ _ k Hg G) as [C _].
  destruct (Hends k d C I E) as (curve & L & A).
  exists k, curve. repeat split; assumption.
Qed.

Lemma cluster_pair_shares_point (round : R -> nat -> R)
    (mep_elements : list MEPCurve) (connectors group : list Connector)
    (d1 d2 : MEPCurve) :
  rounds_to_nearest_thousandth round ->
  connectors_at_curve_ends mep_elements connectors ->
  In group (values (group_MEPcuve_element_connectors_by_location round connectors)) ->
  In d1 (filter_MEPcurve_elements_using_connectors group mep_elements) ->
  In d2 (filter_MEPcurve_elements_using_connectors group mep_elements) ->
  exists m, find_shared_point_between_curves (Location d1) (Location d2) = Some m.
Proof.
  intros Hr Hends Hg H1 H2.
  destruct (cluster_member_end round _ _ _ d1 Hends Hg H1) as (k1 & c1 & G1 & _ & L1 & A1).
  destruct (cluster_member_end round _ _ _ d2 Hends Hg H2) as (k2 & c2 & G2 & _ & L2 & A2).
  destruct (group_member round _ _ k1 Hg G1) as [_ (k & Hk)].
  rewrite L1, L2. apply (close_ends_share_a_point c1 c2 k1 k2 A1 A2).
  apply (same_key_close round k1 k2 Hr). rewrite (Hk k1 G1), (Hk k2 G2). reflexivity.
Qed.

Lemma nearest_exists (d : MEPCurve) (p : XYZ) :
  Connectors d <> [] ->
  exists c, MEPcurve_element_nearest_connector_to_point d p = ret c.
Proof.
  intros N. destruct (nearest_connector_cases d p) as [[_ H] | [E _]];
    [exact H | contradiction].
Qed.

(** X18: every cluster of two or of three elements built by the script gets
    exactly one fitting constructor invocation, on as many connectors as it
    has elements, provided [round(x, 3)] is within half a thousandth of [x],
    every connector lies at an end of its owner's curve and every element has
    a connector: neither the shared-point test nor a missing direction can
    make [create_fitting] give up on it. *)
Theorem script_cluster_gets_exactly_one_fitting
    (round : R -> nat -> R) (mep_elements : list MEPCurve)
    (mep_elements_connectors group : list Connector) :
  rounds_to_nearest_thousandth round ->
  connectors_at_curve_ends mep_elements mep_elements_connectors ->
  Forall has_connector mep_elements ->
  In group (values (group_MEPcuve_element_connectors_by_location round
                      mep_elements_connectors)) ->
  let connected_ducts :=
    filter_MEPcurve_elements_using_connectors group mep_elements in
  (List.length connected_ducts = 2 \/ List.length connected_ducts = 3)%nat ->
  exists call,
    List.length (fitting_connectors call) = List.length connected_ducts /\
    forall DOC w,
      create_fitting DOC connected_ducts w = invoke DOC call w /\
      calls_after (create_fitting DOC connected_ducts) w = invoked w ++ [call].
Proof.
  intros Hr Hends Hconn Hg ducts Hlen.
  assert (Hmem : forall d, In d ducts ->
                   has_connector d /\ exists curve, Location d = Some curve).
  { intros d Hd.
    destruct (cluster_member_end round _ _ _ d Hends Hg Hd) as (k & c & _ & I & L & _).
    split; [|exists c; exact L].
    rewrite Forall_forall in Hconn. apply Hconn, I. }
  assert (Hpair : forall d1 d2, In d1 ducts -> In d2 ducts ->
                    exists m, find_shared_point_between_curves
                                (Location d1) (Location d2) = Some m).
  { intros d1 d2.
    apply (cluster_pair_shares_point round mep_elements mep_elements_connectors
             group d1 d2 Hr Hends Hg). }
  assert (Fin : forall call,
             (forall DOC w, create_fitting DOC ducts w = invoke DOC call w) ->
             forall DOC w,
               create_fitting DOC ducts w = invoke DOC call w /\
               calls_after (create_fitting DOC ducts) w = invoked w ++ [call]).
  { intros call E DOC w. split; [apply E|].
    unfold calls_after. rewrite E. apply (invoke_calls DOC call w). }
  clearbody ducts.
  destruct ducts as [|d1 [|d2 [|d3 [|d4 rest]]]]; simpl in Hlen; try lia.
  - destruct (Hpair d1 d2) as [p Hp]; [simpl; tauto ..|].
    destruct (Hmem d1) as [C1 [c1 L1]]; [simpl; tauto|].
    destruct (Hmem d2) as [C2 [c2 L2]]; [simpl; tauto|].
    destruct (nearest_exists d1 p C1) as [conn1 N1].
    destruct (nearest_exists d2 p C2) as [conn2 N2].
    pose proof (fun DOC w =>
                  create_fitting_run2 DOC d1 d2 p conn1 conn2 _ _ w Hp N1 N2
                    (direction_Some _ _ L1) (direction_Some _ _ L2)) as E.
    destruct (parallel _ _); eexists; (split; [|apply Fin; exact E]); reflexivity.
  - destruct (Hpair d1 d2) as [p Hp]; [simpl; tauto ..|].
    destruct (Hmem d1) as [C1 [c1 L1]]; [simpl; tauto|].
    destruct (Hmem d2) as [C2 [c2 L2]]; [simpl; tauto|].
    destruct (Hmem d3) as [C3 [c3 L3]]; [simpl; tauto|].
    destruct (nearest_exists d1 p C1) as [conn1 N1].
    destruct (nearest_exists d2 p C2) as [conn2 N2].
    destruct (nearest_exists d3 p C3) as [conn3 N3].
    pose proof (fun DOC w =>
                  create_fitting_run3 DOC d1 d2 d3 p conn1 conn2 conn3 _ _ w
                    Hp N1 N2 N3 (direction_Some _ _ L1) (direction_Some _ _ L2)) as E.
    rewrite (direction_Some _ _ L3) in E.
    destruct (parallel _ _);
      [eexists; (split; [|apply Fin; exact E]); reflexivity|].
    destruct (parallel _ _); eexists; (split; [|apply Fin; exact E]); reflexivity.
Qed.

(** The west and the east duct with their four connectors: the cluster at
    the origin gets one fitting on two connectors. *)
Lemma script_cluster_witness :
  exists call,
    List.length (fitting_connectors call) = 2%nat /\
    forall DOC w,
      create_fitting DOC [Fixture.duct_west; Fixture.duct_east] w
      = invoke DOC call w /\
      calls_after (create_fitting DOC [Fixture.duct_west; Fixture.duct_east]) w
      = invoked w ++ [call].
Proof.
  apply (script_cluster_gets_exactly_one_fitting round_half_away
           [Fixture.duct_west; Fixture.duct_east]
           [mkConnector Fixture.west 1; Fixture.conn_west;
            Fixture.conn_east; mkConnector Fixture.east 2]
           [Fixture.conn_west; Fixture.conn_east]).
  - exact round_half_away_accurate.
  - intros c d Hc Hd HO. simpl in Hc, Hd.
    destruct Hd as [<- | [<- | []]];
      destruct Hc as [<- | [<- | [<- | [<- | []]]]];
      try discriminate HO;
      (eexists; split; [reflexivity|]);
      unfold at_curve_end; simpl; auto.
  - repeat constructor; discriminate.
  - rewrite group_west_east. simpl. auto.
  - left. reflexivity.
Defined.

(** ** Clusters are never empty *)

Lemma first_seen_length (ks : list Key) :
  (List.length (first_seen ks) <= List.length ks)%nat.
Proof.
  induction ks as [|k t IH]; simpl; [lia|].
  pose proof (filter_length_le (fun k' => negb (Key_eqb k' k)) (first_seen t)).
  lia.
Qed.

(** X19: the grouping makes no empty cluster and at most as many clusters as
    there are connectors; it makes none at all only for no connector. *)
Theorem clusters_are_never_empty (round : R -> nat -> R) (cs : list Connector) :
  let grouped := group_MEPcuve_element_connectors_by_location round cs in
  (forall group, In group (values grouped) -> group <> []) /\
  (List.length grouped <= List.length cs)%nat /\
  (grouped = [] <-> cs = []).
Proof.
  cbv zeta. rewrite group_closed_form. split; [|split].
  - intros group H. unfold values in H. rewrite map_map in H.
    apply in_map_iff in H. destruct H as (k & <- & Hk). simpl.
    apply first_seen_In, in_map_iff in Hk. destruct Hk as (c & E & Hc).
    intros F.
    assert (I : In c (filter (fun c0 => Key_eqb (location_key round c0) k) cs)).
    { apply filter_In. split; [exact Hc | apply Key_eqb_eq, E]. }
    rewrite F in I. destruct I.
  - rewrite length_map. pose proof (first_seen_length (map (location_key round) cs)).
    rewrite length_map in H. exact H.
  - split.
    + destruct cs as [|c t]; [reflexivity | discriminate].
    + intros ->. reflexivity.
Qed.
